(** * The RocksDB bindings of the cognitive engine

    A shallow embedding of [plugins/cognitive_engine/rocksdb_stubs.c]
    (the [HAVE_ROCKSDB] build) and the properties of its entry points.

    The stubs are glue between OCaml and the RocksDB C API.  The engine
    behind that API is not part of the repository, so it enters the
    development as an interface ([Engine]) with the same function names
    as [rocksdb/c.h]; every stub is written once, over an arbitrary
    engine.  What the stubs rely on from the engine is collected in
    [EngineOk].  A small in-memory engine ([RefEngine]) implements the
    interface so that every stub can be run on concrete inputs.

    Conventions of the embedding:
    - an OCaml custom block holding a pointer to a malloc'ed wrapper is
      the [option] of the wrapper record, [None] being the NULL pointer
      stored by the destroy functions; a stub that changes the block or
      the wrapper returns the new contents next to its result;
    - [caml_failwith msg] is the outcome [Failure msg], [CAMLreturn v]
      the outcome [Ok v];
    - an OCaml integer argument is a [Z] and the stub decodes it as the
      code does: [Int_val] keeps its low 32 bits as a C [int]; a string
      passed with [caml_string_length] (keys, values) is taken whole,
      one passed as a C string (the path, a property name) is read up to
      its first NUL byte ([c_string]);
    - a C [int] is a [Z]; the one place where the stubs do arithmetic on
      it ([n_ops++]) wraps to 32 bits explicitly;
    - the engine object behind a pointer is held by value: the field
      [db] of a wrapper is the state of the store and is replaced by the
      state each engine call leaves;
    - engine calls that only release what the engine holds
      ([rocksdb_close], the [_destroy] functions, [rocksdb_release_snapshot],
      [free]) have no counterpart: they change no result of any stub. *)

From Stdlib Require Import ZArith List String Bool Lia.
Import ListNotations.

Local Open Scope string_scope.
Local Open Scope Z_scope.

(** ** Results of a stub *)

Inductive outcome (A : Type) : Type :=
| Ok (v : A)
| Failure (msg : string).

Arguments Ok {A} v.
Arguments Failure {A} msg.

Definition raised {A : Type} (r : outcome A) : bool :=
  match r with
  | Ok _ => false
  | Failure _ => true
  end.

(** A call of the C API that reports through [char **errptr]: the value
    it produced and the error string left in [err] ([None] for NULL). *)
Inductive status (A : Type) : Type :=
| Done (a : A)
| Err (e : string).

Arguments Done {A} a.
Arguments Err {A} e.

(** [char msg[256]; snprintf(msg, sizeof(msg), fmt "%s", err)]: the
    formatted text cut to 255 characters. *)
Definition snprintf256 (prefix err : string) : string :=
  substring 0 255 (prefix ++ err).

(** ** C integers *)

Definition INT_MAX : Z := 2147483647.
Definition INT_MIN : Z := -2147483648.

(** The value of a 32-bit two's complement [int] holding [z]. *)
Definition wrap_int (z : Z) : Z := (z - INT_MIN) mod 2 ^ 32 + INT_MIN.

(** [Int_val(v)], that is [(int) Long_val(v)]: the OCaml integer [v]
    narrowed to a C [int]. *)
Definition Int_val (v : Z) : Z := wrap_int v.

(** [String_val(v)] read as a C string: the bytes of the OCaml string
    before its first NUL byte. *)
Fixpoint c_string (s : string) : string :=
  match s with
  | EmptyString => EmptyString
  | String c rest =>
      if Ascii.eqb c Ascii.zero then EmptyString else String c (c_string rest)
  end.

(** What a stub does when it may run an engine call outside the
    precondition the C API states for it: it returns or raises, or the
    call leaves its behaviour undefined. *)
Inductive behaviour (A : Type) : Type :=
| Defined (r : outcome A)
| Undefined.

Arguments Defined {A} r.
Arguments Undefined {A}.

(** ** Options built by [caml_rocksdb_open] *)

Inductive compression_t : Type :=
| rocksdb_snappy_compression
| rocksdb_lz4_compression
| rocksdb_zstd_compression.

Record rocksdb_options_t : Type := {
  create_if_missing : bool;
  create_missing_column_families : bool;
  compression : option compression_t;
  bloom_bits_per_key : option Z
}.

Definition rocksdb_options_create : rocksdb_options_t :=
  {| create_if_missing := false;
     create_missing_column_families := false;
     compression := None;
     bloom_bits_per_key := None |}.

Definition rocksdb_options_set_create_if_missing
  (o : rocksdb_options_t) (b : bool) : rocksdb_options_t :=
  {| create_if_missing := b;
     create_missing_column_families := create_missing_column_families o;
     compression := compression o;
     bloom_bits_per_key := bloom_bits_per_key o |}.

Definition rocksdb_options_set_create_missing_column_families
  (o : rocksdb_options_t) (b : bool) : rocksdb_options_t :=
  {| create_if_missing := create_if_missing o;
     create_missing_column_families := b;
     compression := compression o;
     bloom_bits_per_key := bloom_bits_per_key o |}.

Definition rocksdb_options_set_compression
  (o : rocksdb_options_t) (c : compression_t) : rocksdb_options_t :=
  {| create_if_missing := create_if_missing o;
     create_missing_column_families := create_missing_column_families o;
     compression := Some c;
     bloom_bits_per_key := bloom_bits_per_key o |}.

(** [rocksdb_block_based_options_set_filter_policy] with a bloom filter
    of [bits] bits per key, installed as the table factory. *)
Definition rocksdb_options_set_bloom
  (o : rocksdb_options_t) (bits : Z) : rocksdb_options_t :=
  {| create_if_missing := create_if_missing o;
     create_missing_column_families := create_missing_column_families o;
     compression := compression o;
     bloom_bits_per_key := Some bits |}.

(** ** Column family names *)

Definition CF_DEFAULT : string := "default".
Definition CF_NODES : string := "nodes".
Definition CF_LINKS : string := "links".
Definition CF_INCOMING : string := "incoming".
Definition CF_OUTGOING : string := "outgoing".
Definition CF_ATTENTION : string := "attention".
Definition CF_TRUTH_VALUES : string := "truth_values".
Definition CF_METADATA : string := "metadata".

Definition MAX_COLUMN_FAMILIES : Z := 16.

Definition cf_names : list string :=
  [CF_DEFAULT; CF_NODES; CF_LINKS; CF_INCOMING;
   CF_OUTGOING; CF_ATTENTION; CF_TRUTH_VALUES; CF_METADATA].

(** ** The engine behind the C API *)

(** One pending operation of a write batch. *)
Inductive batch_op : Type :=
| BPut (key val : string)
| BDelete (key : string).

Class Engine : Type := {
  (** what is on storage when a path is opened *)
  env_t : Type;
  rocksdb_t : Type;
  cf_handle_t : Type;
  writeoptions_t : Type;
  readoptions_t : Type;
  writebatch_t : Type;
  iterator_t : Type;
  snapshot_t : Type;

  rocksdb_open_column_families :
    env_t -> rocksdb_options_t -> string -> list string ->
    list rocksdb_options_t -> status (rocksdb_t * list cf_handle_t);
  rocksdb_open : env_t -> rocksdb_options_t -> string -> status rocksdb_t;
  rocksdb_create_column_family :
    rocksdb_t -> rocksdb_options_t -> string ->
    rocksdb_t * option cf_handle_t * option string;

  rocksdb_writeoptions_create : writeoptions_t;
  rocksdb_readoptions_create : readoptions_t;
  rocksdb_readoptions_set_snapshot : readoptions_t -> snapshot_t -> readoptions_t;

  rocksdb_put :
    rocksdb_t -> writeoptions_t -> string -> string -> rocksdb_t * option string;
  rocksdb_put_cf :
    rocksdb_t -> writeoptions_t -> cf_handle_t -> string -> string ->
    rocksdb_t * option string;
  rocksdb_get :
    rocksdb_t -> readoptions_t -> string -> option string * option string;
  rocksdb_get_cf :
    rocksdb_t -> readoptions_t -> cf_handle_t -> string ->
    option string * option string;
  rocksdb_delete :
    rocksdb_t -> writeoptions_t -> string -> rocksdb_t * option string;
  rocksdb_delete_cf :
    rocksdb_t -> writeoptions_t -> cf_handle_t -> string ->
    rocksdb_t * option string;

  rocksdb_writebatch_create : writebatch_t;
  rocksdb_writebatch_put : writebatch_t -> string -> string -> writebatch_t;
  rocksdb_writebatch_delete : writebatch_t -> string -> writebatch_t;
  rocksdb_writebatch_clear : writebatch_t -> writebatch_t;
  rocksdb_write :
    rocksdb_t -> writeoptions_t -> writebatch_t -> rocksdb_t * option string;

  rocksdb_create_iterator : rocksdb_t -> readoptions_t -> iterator_t;
  rocksdb_create_iterator_cf :
    rocksdb_t -> readoptions_t -> cf_handle_t -> iterator_t;
  rocksdb_iter_seek_to_first : iterator_t -> iterator_t;
  rocksdb_iter_seek_to_last : iterator_t -> iterator_t;
  rocksdb_iter_seek : iterator_t -> string -> iterator_t;
  rocksdb_iter_next : iterator_t -> iterator_t;
  rocksdb_iter_prev : iterator_t -> iterator_t;
  rocksdb_iter_valid : iterator_t -> bool;
  (** the two accessors require a valid iterator: [None] is a call
      outside that precondition, for which the API defines no result *)
  rocksdb_iter_key : iterator_t -> option string;
  rocksdb_iter_value : iterator_t -> option string;

  rocksdb_create_snapshot : rocksdb_t -> snapshot_t;

  rocksdb_property_value : rocksdb_t -> string -> option string;
  rocksdb_compact_range : rocksdb_t -> rocksdb_t;
  rocksdb_compact_range_cf : rocksdb_t -> cf_handle_t -> rocksdb_t;
  (** [rocksdb_flush] with the flush options' [wait] flag *)
  rocksdb_flush : rocksdb_t -> bool -> rocksdb_t * option string
}.

(** ** The wrappers and the stubs *)

Section Stubs.

Context {E : Engine}.

(** [rocksdb_wrapper].  [cf_handles] lists the slots [0 .. n_cf-1] of
    the C array, the only ones a stub reads; a NULL slot is [None]. *)
Record rocksdb_wrapper : Type := {
  db : rocksdb_t;
  options : rocksdb_options_t;
  write_options : writeoptions_t;
  read_options : readoptions_t;
  cf_handles : list (option cf_handle_t);
  n_cf : Z;
  path : string;
  is_open : Z
}.

Record rocksdb_batch_wrapper : Type := {
  batch : option writebatch_t;
  n_ops : Z
}.

Record rocksdb_iter_wrapper : Type := {
  iter : option iterator_t;
  cf_index : Z
}.

(** [db_wrapper] is a pointer to the parent's wrapper; the stubs only
    test it against NULL and hand its engine handle to
    [rocksdb_release_snapshot], which changes no contents. *)
Record rocksdb_snapshot_wrapper : Type := {
  snapshot : option snapshot_t;
  db_wrapper : option rocksdb_wrapper
}.

(** The contents of the custom blocks: [Rocksdb_val], [Batch_val],
    [Iter_val] and [Snapshot_val]. *)
Definition db_val : Type := option rocksdb_wrapper.
Definition batch_val : Type := option rocksdb_batch_wrapper.
Definition iter_val : Type := option rocksdb_iter_wrapper.
Definition snapshot_val : Type := option rocksdb_snapshot_wrapper.

(** The wrapper after an engine call that left the store as [d]. *)
Definition with_db (w : rocksdb_wrapper) (d : rocksdb_t) : rocksdb_wrapper :=
  {| db := d;
     options := options w;
     write_options := write_options w;
     read_options := read_options w;
     cf_handles := cf_handles w;
     n_cf := n_cf w;
     path := path w;
     is_open := is_open w |}.

(** [wrapper == NULL || !wrapper->is_open] *)
Definition not_open (d : db_val) : bool :=
  match d with
  | None => true
  | Some w => is_open w =? 0
  end.

(** [cf_idx > 0 && cf_idx < wrapper->n_cf && wrapper->cf_handles[cf_idx] != NULL]:
    the handle the [_cf] call receives when the test holds, [None] when
    the stub takes the branch of the default column family.  [cf_idx]
    is the C [int] of [int cf_idx = Int_val(cf_index)]. *)
Definition cf_handle_for (w : rocksdb_wrapper) (cf_idx : Z) : option cf_handle_t :=
  if (0 <? cf_idx) && (cf_idx <? n_cf w)
  then nth (Z.to_nat cf_idx) (cf_handles w) None
  else None.

(** *** Database management *)

Definition set_compression (o : rocksdb_options_t) (comp_type : Z) : rocksdb_options_t :=
  if comp_type =? 1 then rocksdb_options_set_compression o rocksdb_snappy_compression
  else if comp_type =? 2 then rocksdb_options_set_compression o rocksdb_lz4_compression
  else if comp_type =? 3 then rocksdb_options_set_compression o rocksdb_zstd_compression
  else o.

Definition open_options (create_if_missing : bool) (compression : Z) : rocksdb_options_t :=
  let options := rocksdb_options_create in
  let options := rocksdb_options_set_create_if_missing options create_if_missing in
  let options := rocksdb_options_set_create_missing_column_families options true in
  let comp_type := Int_val compression in
  let options := set_compression options comp_type in
  rocksdb_options_set_bloom options 10.

(** [for (int i = 1; i < n_cf; i++) cf_handles[i] =
    rocksdb_create_column_family(db, options, cf_names[i], &err)], the
    error of each call being freed and dropped; [names] is
    [cf_names[1 .. n_cf-1]]. *)
Fixpoint create_column_families (d : rocksdb_t) (o : rocksdb_options_t)
  (names : list string) : rocksdb_t * list (option cf_handle_t) :=
  match names with
  | [] => (d, [])
  | name :: rest =>
      let '(d1, h, _) := rocksdb_create_column_family d o name in
      let '(d2, hs) := create_column_families d1 o rest in
      (d2, h :: hs)
  end.

(** [malloc_ok] tells whether [malloc] returns a block for the wrapper. *)
Definition caml_rocksdb_open (env : env_t) (malloc_ok : bool)
  (path : string) (create_if_missing : bool) (compression : Z) : outcome db_val :=
  let db_path := c_string path in
  let options := open_options create_if_missing compression in
  let n_cf := 8%nat in
  let cf_options := repeat rocksdb_options_create n_cf in
  let opened :=
    match rocksdb_open_column_families env options db_path cf_names cf_options with
    | Done (d, hs) => Ok (d, map (fun i => nth_error hs i) (seq 0 n_cf))
    | Err _ =>
        match rocksdb_open env options db_path with
        | Err err => Failure (snprintf256 "rocksdb_open failed: " err)
        | Done d =>
            let '(d', hs) := create_column_families d options (skipn 1 cf_names) in
            Ok (d', None :: hs)
        end
    end in
  match opened with
  | Failure msg => Failure msg
  | Ok (d, handles) =>
      if malloc_ok then
        Ok (Some {| db := d;
                    options := options;
                    write_options := rocksdb_writeoptions_create;
                    read_options := rocksdb_readoptions_create;
                    cf_handles := handles;
                    n_cf := Z.of_nat n_cf;
                    path := db_path;
                    is_open := 1 |})
      else Failure "rocksdb_open: failed to allocate wrapper"
  end.

Definition caml_rocksdb_close (d : db_val) : db_val * outcome unit :=
  if not_open d then (d, Ok tt) else (None, Ok tt).

Definition caml_rocksdb_is_open (d : db_val) : outcome bool :=
  Ok (negb (not_open d)).

(** *** Basic operations *)

Definition caml_rocksdb_put (d : db_val) (cf_index : Z) (key val : string)
  : db_val * outcome unit :=
  match d with
  | None => (d, Failure "rocksdb_put: database not open")
  | Some wrapper =>
      if is_open wrapper =? 0 then (d, Failure "rocksdb_put: database not open")
      else
        let '(d', err) :=
          match cf_handle_for wrapper (Int_val cf_index) with
          | Some h => rocksdb_put_cf (db wrapper) (write_options wrapper) h key val
          | None => rocksdb_put (db wrapper) (write_options wrapper) key val
          end in
        match err with
        | Some e => (Some (with_db wrapper d'), Failure (snprintf256 "rocksdb_put failed: " e))
        | None => (Some (with_db wrapper d'), Ok tt)
        end
  end.

Definition caml_rocksdb_get (d : db_val) (cf_index : Z) (key : string)
  : outcome (option string) :=
  match d with
  | None => Failure "rocksdb_get: database not open"
  | Some wrapper =>
      if is_open wrapper =? 0 then Failure "rocksdb_get: database not open"
      else
        let '(val, err) :=
          match cf_handle_for wrapper (Int_val cf_index) with
          | Some h => rocksdb_get_cf (db wrapper) (read_options wrapper) h key
          | None => rocksdb_get (db wrapper) (read_options wrapper) key
          end in
        match err with
        | Some e => Failure (snprintf256 "rocksdb_get failed: " e)
        | None => Ok val
        end
  end.

Definition caml_rocksdb_delete (d : db_val) (cf_index : Z) (key : string)
  : db_val * outcome unit :=
  match d with
  | None => (d, Failure "rocksdb_delete: database not open")
  | Some wrapper =>
      if is_open wrapper =? 0 then (d, Failure "rocksdb_delete: database not open")
      else
        let '(d', err) :=
          match cf_handle_for wrapper (Int_val cf_index) with
          | Some h => rocksdb_delete_cf (db wrapper) (write_options wrapper) h key
          | None => rocksdb_delete (db wrapper) (write_options wrapper) key
          end in
        match err with
        | Some e => (Some (with_db wrapper d'), Failure (snprintf256 "rocksdb_delete failed: " e))
        | None => (Some (with_db wrapper d'), Ok tt)
        end
  end.

Definition caml_rocksdb_exists (d : db_val) (cf_index : Z) (key : string)
  : outcome bool :=
  match d with
  | None => Failure "rocksdb_exists: database not open"
  | Some wrapper =>
      if is_open wrapper =? 0 then Failure "rocksdb_exists: database not open"
      else
        let '(val, err) :=
          match cf_handle_for wrapper (Int_val cf_index) with
          | Some h => rocksdb_get_cf (db wrapper) (read_options wrapper) h key
          | None => rocksdb_get (db wrapper) (read_options wrapper) key
          end in
        match err with
        | Some _ => Ok false
        | None =>
            match val with
            | Some _ => Ok true
            | None => Ok false
            end
        end
  end.

(** *** Batch operations *)

Definition caml_rocksdb_batch_create (malloc_ok : bool) : outcome batch_val :=
  if malloc_ok then
    Ok (Some {| batch := Some rocksdb_writebatch_create; n_ops := 0 |})
  else Failure "rocksdb_batch_create: failed to allocate wrapper".

Definition caml_rocksdb_batch_put (b : batch_val) (key val : string)
  : batch_val * outcome unit :=
  match b with
  | None => (b, Failure "rocksdb_batch_put: invalid batch")
  | Some wrapper =>
      match batch wrapper with
      | None => (b, Failure "rocksdb_batch_put: invalid batch")
      | Some wb =>
          (Some {| batch := Some (rocksdb_writebatch_put wb key val);
                   n_ops := wrap_int (n_ops wrapper + 1) |},
           Ok tt)
      end
  end.

Definition caml_rocksdb_batch_delete (b : batch_val) (key : string)
  : batch_val * outcome unit :=
  match b with
  | None => (b, Failure "rocksdb_batch_delete: invalid batch")
  | Some wrapper =>
      match batch wrapper with
      | None => (b, Failure "rocksdb_batch_delete: invalid batch")
      | Some wb =>
          (Some {| batch := Some (rocksdb_writebatch_delete wb key);
                   n_ops := wrap_int (n_ops wrapper + 1) |},
           Ok tt)
      end
  end.

Definition caml_rocksdb_batch_clear (b : batch_val) : batch_val * outcome unit :=
  match b with
  | None => (b, Failure "rocksdb_batch_clear: invalid batch")
  | Some wrapper =>
      match batch wrapper with
      | None => (b, Failure "rocksdb_batch_clear: invalid batch")
      | Some wb =>
          (Some {| batch := Some (rocksdb_writebatch_clear wb); n_ops := 0 |}, Ok tt)
      end
  end.

Definition caml_rocksdb_batch_count (b : batch_val) : outcome Z :=
  match b with
  | None => Ok 0
  | Some wrapper => Ok (n_ops wrapper)
  end.

Definition caml_rocksdb_batch_write (d : db_val) (b : batch_val)
  : db_val * outcome unit :=
  match d with
  | None => (d, Failure "rocksdb_batch_write: database not open")
  | Some db_wrapper =>
      if is_open db_wrapper =? 0
      then (d, Failure "rocksdb_batch_write: database not open")
      else
        match b with
        | None => (d, Failure "rocksdb_batch_write: invalid batch")
        | Some batch_wrapper =>
            match batch batch_wrapper with
            | None => (d, Failure "rocksdb_batch_write: invalid batch")
            | Some wb =>
                let '(d', err) :=
                  rocksdb_write (db db_wrapper) (write_options db_wrapper) wb in
                match err with
                | Some e =>
                    (Some (with_db db_wrapper d'),
                     Failure (snprintf256 "rocksdb_batch_write failed: " e))
                | None => (Some (with_db db_wrapper d'), Ok tt)
                end
            end
        end
  end.

Definition caml_rocksdb_batch_destroy (b : batch_val) : batch_val * outcome unit :=
  match b with
  | None => (b, Ok tt)
  | Some _ => (None, Ok tt)
  end.

(** *** Iterator operations *)

Definition caml_rocksdb_iter_create (d : db_val) (malloc_ok : bool) (cf_index : Z)
  : outcome iter_val :=
  match d with
  | None => Failure "rocksdb_iter_create: database not open"
  | Some wrapper =>
      if is_open wrapper =? 0 then Failure "rocksdb_iter_create: database not open"
      else
        let it :=
          match cf_handle_for wrapper (Int_val cf_index) with
          | Some h => rocksdb_create_iterator_cf (db wrapper) (read_options wrapper) h
          | None => rocksdb_create_iterator (db wrapper) (read_options wrapper)
          end in
        if malloc_ok then Ok (Some {| iter := Some it; cf_index := Int_val cf_index |})
        else Failure "rocksdb_iter_create: failed to allocate wrapper"
  end.

(** The common shape of the five positioning stubs: fail on a NULL
    wrapper or iterator, else let the engine move the cursor. *)
Definition iter_move (name : string) (move : iterator_t -> iterator_t) (i : iter_val)
  : iter_val * outcome unit :=
  match i with
  | None => (i, Failure (name ++ ": invalid iterator"))
  | Some wrapper =>
      match iter wrapper with
      | None => (i, Failure (name ++ ": invalid iterator"))
      | Some it =>
          (Some {| iter := Some (move it); cf_index := cf_index wrapper |}, Ok tt)
      end
  end.

Definition caml_rocksdb_iter_seek_to_first : iter_val -> iter_val * outcome unit :=
  iter_move "rocksdb_iter_seek_to_first" rocksdb_iter_seek_to_first.

Definition caml_rocksdb_iter_seek_to_last : iter_val -> iter_val * outcome unit :=
  iter_move "rocksdb_iter_seek_to_last" rocksdb_iter_seek_to_last.

Definition caml_rocksdb_iter_seek (i : iter_val) (key : string) : iter_val * outcome unit :=
  iter_move "rocksdb_iter_seek" (fun it => rocksdb_iter_seek it key) i.

Definition caml_rocksdb_iter_next : iter_val -> iter_val * outcome unit :=
  iter_move "rocksdb_iter_next" rocksdb_iter_next.

Definition caml_rocksdb_iter_prev : iter_val -> iter_val * outcome unit :=
  iter_move "rocksdb_iter_prev" rocksdb_iter_prev.

Definition caml_rocksdb_iter_valid (i : iter_val) : outcome bool :=
  match i with
  | None => Ok false
  | Some wrapper =>
      match iter wrapper with
      | None => Ok false
      | Some it => Ok (rocksdb_iter_valid it)
      end
  end.

(** The two accessors test the handle and then call the engine's
    accessor, whatever the position of the cursor.  Where that call is
    outside its precondition, what the stub copies and returns is not
    defined. *)
Definition caml_rocksdb_iter_key (i : iter_val) : behaviour string :=
  match i with
  | None => Defined (Failure "rocksdb_iter_key: invalid iterator")
  | Some wrapper =>
      match iter wrapper with
      | None => Defined (Failure "rocksdb_iter_key: invalid iterator")
      | Some it =>
          match rocksdb_iter_key it with
          | Some key => Defined (Ok key)
          | None => Undefined
          end
      end
  end.

Definition caml_rocksdb_iter_value (i : iter_val) : behaviour string :=
  match i with
  | None => Defined (Failure "rocksdb_iter_value: invalid iterator")
  | Some wrapper =>
      match iter wrapper with
      | None => Defined (Failure "rocksdb_iter_value: invalid iterator")
      | Some it =>
          match rocksdb_iter_value it with
          | Some val => Defined (Ok val)
          | None => Undefined
          end
      end
  end.

Definition caml_rocksdb_iter_destroy (i : iter_val) : iter_val * outcome unit :=
  match i with
  | None => (i, Ok tt)
  | Some _ => (None, Ok tt)
  end.

(** *** Snapshot operations *)

Definition caml_rocksdb_snapshot_create (d : db_val) (malloc_ok : bool)
  : outcome snapshot_val :=
  match d with
  | None => Failure "rocksdb_snapshot_create: database not open"
  | Some wrapper =>
      if is_open wrapper =? 0 then Failure "rocksdb_snapshot_create: database not open"
      else
        let snapshot := rocksdb_create_snapshot (db wrapper) in
        if malloc_ok then
          Ok (Some {| snapshot := Some snapshot; db_wrapper := Some wrapper |})
        else Failure "rocksdb_snapshot_create: failed to allocate wrapper"
  end.

Definition caml_rocksdb_snapshot_release (s : snapshot_val) : snapshot_val * outcome unit :=
  match s with
  | None => (s, Ok tt)
  | Some wrapper =>
      match snapshot wrapper, db_wrapper wrapper with
      | Some _, Some _ => (None, Ok tt)
      | _, _ => (s, Ok tt)
      end
  end.

(** *** Statistics and utilities *)

Definition caml_rocksdb_get_property (d : db_val) (property : string)
  : outcome (option string) :=
  match d with
  | None => Failure "rocksdb_get_property: database not open"
  | Some wrapper =>
      if is_open wrapper =? 0 then Failure "rocksdb_get_property: database not open"
      else Ok (rocksdb_property_value (db wrapper) (c_string property))
  end.

Definition caml_rocksdb_compact_range (d : db_val) (cf_index : Z)
  : db_val * outcome unit :=
  match d with
  | None => (d, Failure "rocksdb_compact_range: database not open")
  | Some wrapper =>
      if is_open wrapper =? 0
      then (d, Failure "rocksdb_compact_range: database not open")
      else
        let d' :=
          match cf_handle_for wrapper (Int_val cf_index) with
          | Some h => rocksdb_compact_range_cf (db wrapper) h
          | None => rocksdb_compact_range (db wrapper)
          end in
        (Some (with_db wrapper d'), Ok tt)
  end.

Definition caml_rocksdb_flush (d : db_val) : db_val * outcome unit :=
  match d with
  | None => (d, Failure "rocksdb_flush: database not open")
  | Some wrapper =>
      if is_open wrapper =? 0 then (d, Failure "rocksdb_flush: database not open")
      else
        let '(d', err) := rocksdb_flush (db wrapper) true in
        match err with
        | Some e => (Some (with_db wrapper d'), Failure (snprintf256 "rocksdb_flush failed: " e))
        | None => (Some (with_db wrapper d'), Ok tt)
        end
  end.

Definition caml_rocksdb_backend_available : outcome bool := Ok true.

End Stubs.

(** ** What the stubs rely on from the engine *)

(** The effect of one pending operation, and of a sequence of them in
    order, on the contents of a column family. *)
Definition apply_op (m : string -> option string) (op : batch_op)
  : string -> option string :=
  fun k =>
    match op with
    | BPut key val => if String.eqb k key then Some val else m k
    | BDelete key => if String.eqb k key then None else m k
    end.

Definition apply_ops (ops : list batch_op) (m : string -> option string)
  : string -> option string :=
  fold_left apply_op ops m.

(** The logical reading of the engine's objects: the committed contents
    of a column family ([None] is the default one, the target of the
    calls without [_cf]) and the operations a write batch holds, oldest
    first. *)
Class EngineViews (E : Engine) : Type := {
  committed : rocksdb_t -> option cf_handle_t -> string -> option string;
  pending : writebatch_t -> list batch_op
}.

(** The part of the documented behaviour of the C API that the
    properties below use: reads with fresh read options see the
    committed contents, a successful put is committed, a write batch
    records its operations in order and [rocksdb_write] commits all of
    them or, when it reports an error, leaves the store as it was. *)
Class EngineOk (E : Engine) (V : EngineViews E) : Prop := {
  get_committed : forall d k v,
    rocksdb_get d rocksdb_readoptions_create k = (v, None) ->
    v = committed d None k;
  get_cf_committed : forall d h k v,
    rocksdb_get_cf d rocksdb_readoptions_create h k = (v, None) ->
    v = committed d (Some h) k;
  put_committed : forall d wo k v d',
    rocksdb_put d wo k v = (d', None) ->
    committed d' None k = Some v;
  put_cf_committed : forall d wo h k v d',
    rocksdb_put_cf d wo h k v = (d', None) ->
    committed d' (Some h) k = Some v;
  pending_create : pending rocksdb_writebatch_create = [];
  pending_put : forall b k v,
    pending (rocksdb_writebatch_put b k v) = (pending b ++ [BPut k v])%list;
  pending_delete : forall b k,
    pending (rocksdb_writebatch_delete b k) = (pending b ++ [BDelete k])%list;
  pending_clear : forall b, pending (rocksdb_writebatch_clear b) = [];
  write_committed : forall d wo b d',
    rocksdb_write d wo b = (d', None) ->
    forall k, committed d' None k = apply_ops (pending b) (committed d None) k;
  write_failed : forall d wo b d' e,
    rocksdb_write d wo b = (d', Some e) -> d' = d
}.

(** ** An in-memory engine *)

Module Ref.

(** The entries of one column family; keys are unique. *)
Definition store : Type := list (string * string).

Definition store_get (st : store) (k : string) : option string :=
  match find (fun e => String.eqb (fst e) k) st with
  | Some e => Some (snd e)
  | None => None
  end.

Definition store_remove (st : store) (k : string) : store :=
  filter (fun e => negb (String.eqb (fst e) k)) st.

Definition store_put (st : store) (k v : string) : store :=
  (k, v) :: store_remove st k.

Definition store_apply (st : store) (op : batch_op) : store :=
  match op with
  | BPut k v => store_put st k v
  | BDelete k => store_remove st k
  end.

(** The column families of a store, by name. *)
Definition families : Type := list (string * store).

Definition find_cf (name : string) (cfs : families) : option store :=
  match find (fun c => String.eqb (fst c) name) cfs with
  | Some c => Some (snd c)
  | None => None
  end.

Definition update_cf (name : string) (f : store -> store) (cfs : families) : families :=
  map (fun c => if String.eqb (fst c) name then (fst c, f (snd c)) else c) cfs.

Definition add_cf (cfs : families) (name : string) : families :=
  match find_cf name cfs with
  | Some _ => cfs
  | None => (cfs ++ [(name, [])])%list
  end.

(** An open store: its column families and, for fault injection, the
    error every fallible call reports while it is set. *)
Record t : Type := {
  cfs : families;
  fault : option string
}.

(** What is found at the path: the families stored there, if any, the
    error a registry-complete open runs into, if any, and the fault the
    opened store will suffer from. *)
Record env : Type := {
  on_disk : option families;
  registry_error : option string;
  io_fault : option string
}.

Definition missing (path : string) : string :=
  "Invalid argument: " ++ path ++ ": does not exist (create_if_missing is false)".

Definition open_column_families (e : env) (o : rocksdb_options_t) (path : string)
  (names : list string) (_ : list rocksdb_options_t) : status (t * list string) :=
  match registry_error e with
  | Some msg => Err msg
  | None =>
      match on_disk e with
      | Some c =>
          Done ({| cfs := fold_left add_cf names c; fault := io_fault e |}, names)
      | None =>
          if create_if_missing o
          then Done ({| cfs := fold_left add_cf names []; fault := io_fault e |}, names)
          else Err (missing path)
      end
  end.

Definition open (e : env) (o : rocksdb_options_t) (path : string) : status t :=
  match on_disk e with
  | Some c => Done {| cfs := add_cf c CF_DEFAULT; fault := io_fault e |}
  | None =>
      if create_if_missing o
      then Done {| cfs := [(CF_DEFAULT, [])]; fault := io_fault e |}
      else Err (missing path)
  end.

Definition create_column_family (d : t) (_ : rocksdb_options_t) (name : string)
  : t * option string * option string :=
  match fault d with
  | Some msg => (d, None, Some msg)
  | None =>
      match find_cf name (cfs d) with
      | Some _ => (d, None, Some "Invalid argument: Column family already exists")
      | None => ({| cfs := (cfs d ++ [(name, [])])%list; fault := None |}, Some name, None)
      end
  end.

(** A fallible update of the family [name]. *)
Definition update (d : t) (name : string) (f : store -> store) : t * option string :=
  match fault d with
  | Some msg => (d, Some msg)
  | None =>
      match find_cf name (cfs d) with
      | None => (d, Some "Invalid argument: Column family not found")
      | Some _ => ({| cfs := update_cf name f (cfs d); fault := None |}, None)
      end
  end.

(** A fallible lookup in the family [name], in the families of the
    snapshot when the read options carry one. *)
Definition lookup (d : t) (ro : option families) (name k : string)
  : option string * option string :=
  match fault d with
  | Some msg => (None, Some msg)
  | None =>
      match find_cf name (match ro with Some snap => snap | None => cfs d end) with
      | None => (None, Some "Invalid argument: Column family not found")
      | Some st => (store_get st k, None)
      end
  end.

(** Insertion sort of the entries by key. *)
Fixpoint insert_entry (e : string * string) (l : store) : store :=
  match l with
  | [] => [e]
  | x :: rest => if String.leb (fst e) (fst x) then e :: l else x :: insert_entry e rest
  end.

Definition sort_entries (l : store) : store := fold_right insert_entry [] l.

(** A cursor: the entries in key order and the position, if any. *)
Record cursor : Type := {
  entries : store;
  pos : option nat
}.

Definition create_iterator (d : t) (ro : option families) (name : string) : cursor :=
  let view := match ro with Some snap => snap | None => cfs d end in
  {| entries := match find_cf name view with
                | Some st => sort_entries st
                | None => []
                end;
     pos := None |}.

Definition at_index (c : cursor) (i : nat) : cursor :=
  {| entries := entries c;
     pos := if (i <? List.length (entries c))%nat then Some i else None |}.

Definition off (c : cursor) : cursor := {| entries := entries c; pos := None |}.

(** The index of the first entry whose key is not below [k]. *)
Fixpoint lower_bound (l : store) (k : string) : nat :=
  match l with
  | [] => 0%nat
  | x :: rest => if String.leb k (fst x) then 0%nat else S (lower_bound rest k)
  end.

Definition iter_next (c : cursor) : cursor :=
  match pos c with
  | Some i => at_index c (S i)
  | None => c
  end.

Definition iter_prev (c : cursor) : cursor :=
  match pos c with
  | Some (S i) => at_index c i
  | _ => off c
  end.

Definition iter_valid (c : cursor) : bool :=
  match pos c with
  | Some _ => true
  | None => false
  end.

(** The entry under the cursor; off an entry the accessors have
    nothing to point at. *)
Definition iter_entry (c : cursor) : option (string * string) :=
  match pos c with
  | Some i => Some (nth i (entries c) (EmptyString, EmptyString))
  | None => None
  end.

Definition property_value (d : t) (name : string) : option string :=
  if String.eqb name "rocksdb.column-family-names"
  then Some (String.concat "," (map fst (cfs d)))
  else None.

Definition flush (d : t) (_ : bool) : t * option string :=
  match fault d with
  | Some msg => (d, Some msg)
  | None => (d, None)
  end.

Definition write (d : t) (b : list batch_op) : t * option string :=
  update d CF_DEFAULT (fun st => fold_left store_apply b st).

End Ref.

#[export] Instance RefEngine : Engine := {|
  env_t := Ref.env;
  rocksdb_t := Ref.t;
  cf_handle_t := string;
  writeoptions_t := unit;
  readoptions_t := option Ref.families;
  writebatch_t := list batch_op;
  iterator_t := Ref.cursor;
  snapshot_t := Ref.families;
  rocksdb_open_column_families := Ref.open_column_families;
  rocksdb_open := Ref.open;
  rocksdb_create_column_family := Ref.create_column_family;
  rocksdb_writeoptions_create := tt;
  rocksdb_readoptions_create := None;
  rocksdb_readoptions_set_snapshot := fun _ s => Some s;
  rocksdb_put := fun d _ k v => Ref.update d CF_DEFAULT (fun st => Ref.store_put st k v);
  rocksdb_put_cf := fun d _ h k v => Ref.update d h (fun st => Ref.store_put st k v);
  rocksdb_get := fun d ro k => Ref.lookup d ro CF_DEFAULT k;
  rocksdb_get_cf := fun d ro h k => Ref.lookup d ro h k;
  rocksdb_delete := fun d _ k => Ref.update d CF_DEFAULT (fun st => Ref.store_remove st k);
  rocksdb_delete_cf := fun d _ h k => Ref.update d h (fun st => Ref.store_remove st k);
  rocksdb_writebatch_create := [];
  rocksdb_writebatch_put := fun b k v => (b ++ [BPut k v])%list;
  rocksdb_writebatch_delete := fun b k => (b ++ [BDelete k])%list;
  rocksdb_writebatch_clear := fun _ => [];
  rocksdb_write := fun d _ b => Ref.write d b;
  rocksdb_create_iterator := fun d ro => Ref.create_iterator d ro CF_DEFAULT;
  rocksdb_create_iterator_cf := fun d ro h => Ref.create_iterator d ro h;
  rocksdb_iter_seek_to_first := fun c => Ref.at_index c 0;
  rocksdb_iter_seek_to_last := fun c => Ref.at_index c (List.length (Ref.entries c) - 1)%nat;
  rocksdb_iter_seek := fun c k => Ref.at_index c (Ref.lower_bound (Ref.entries c) k);
  rocksdb_iter_next := Ref.iter_next;
  rocksdb_iter_prev := Ref.iter_prev;
  rocksdb_iter_valid := Ref.iter_valid;
  rocksdb_iter_key := fun c => option_map fst (Ref.iter_entry c);
  rocksdb_iter_value := fun c => option_map snd (Ref.iter_entry c);
  rocksdb_create_snapshot := Ref.cfs;
  rocksdb_property_value := Ref.property_value;
  rocksdb_compact_range := fun d => d;
  rocksdb_compact_range_cf := fun d _ => d;
  rocksdb_flush := Ref.flush
|}.

#[export] Instance RefViews : EngineViews RefEngine := {|
  committed := fun d c k =>
    match Ref.find_cf (match c with Some h => h | None => CF_DEFAULT end) (Ref.cfs d) with
    | Some st => Ref.store_get st k
    | None => None
    end;
  pending := fun b => b
|}.

(** ** Vocabulary of the statements *)

Section Statements.

Context {E : Engine}.

(** The index does not name a registered namespace with a live handle:
    it is zero or negative, at or beyond the registered count, or its
    slot is NULL. *)
Definition out_of_range (w : rocksdb_wrapper) (cf_idx : Z) : Prop :=
  cf_idx <= 0 \/ n_cf w <= cf_idx \/ nth (Z.to_nat cf_idx) (cf_handles w) None = None.

(** The index names a registered namespace whose handle is [h]. *)
Definition names_handle (w : rocksdb_wrapper) (cf_idx : Z) (h : cf_handle_t) : Prop :=
  0 < cf_idx < n_cf w /\ nth (Z.to_nat cf_idx) (cf_handles w) None = Some h.

(** How a writing stub ends after the engine call [r]: the store is as
    the engine left it and an engine error is raised with its text. *)
Definition surfaced (name : string) (w : rocksdb_wrapper) (r : rocksdb_t * option string)
  : db_val * outcome unit :=
  (Some (with_db w (fst r)),
   match snd r with
   | Some e => Failure (snprintf256 (name ++ " failed: ") e)
   | None => Ok tt
   end).

(** The engine lookup behind [caml_rocksdb_get] and [caml_rocksdb_exists]. *)
Definition engine_lookup (w : rocksdb_wrapper) (cf_idx : Z) (key : string)
  : option string * option string :=
  match cf_handle_for w (Int_val cf_idx) with
  | Some h => rocksdb_get_cf (db w) (read_options w) h key
  | None => rocksdb_get (db w) (read_options w) key
  end.

(** The calls that fill or empty a batch, and a batch after a sequence
    of them. *)
Inductive batch_call : Type :=
| CallPut (key val : string)
| CallDelete (key : string)
| CallClear.

Definition run_call (b : batch_val) (c : batch_call) : batch_val * outcome unit :=
  match c with
  | CallPut key val => caml_rocksdb_batch_put b key val
  | CallDelete key => caml_rocksdb_batch_delete b key
  | CallClear => caml_rocksdb_batch_clear b
  end.

Definition run_calls (b : batch_val) (cs : list batch_call) : batch_val :=
  fold_left (fun b c => fst (run_call b c)) cs b.

(** The puts and deletes of [cs] that no later clear has discarded,
    oldest first, after the operations [acc] that were pending before. *)
Fixpoint pending_after (acc : list batch_op) (cs : list batch_call) : list batch_op :=
  match cs with
  | [] => acc
  | CallPut key val :: rest => pending_after (acc ++ [BPut key val])%list rest
  | CallDelete key :: rest => pending_after (acc ++ [BDelete key])%list rest
  | CallClear :: rest => pending_after [] rest
  end.

(** The wrapper [caml_rocksdb_open] fills in for the store [d] and the
    registry [handles]. *)
Definition opened_wrapper (options : rocksdb_options_t) (path : string)
  (d : rocksdb_t) (handles : list (option cf_handle_t)) : rocksdb_wrapper :=
  {| db := d;
     options := options;
     write_options := rocksdb_writeoptions_create;
     read_options := rocksdb_readoptions_create;
     cf_handles := handles;
     n_cf := 8;
     path := path;
     is_open := 1 |}.

(** The registry-complete attempt of [caml_rocksdb_open]. *)
Definition first_attempt (env : env_t) (options : rocksdb_options_t) (path : string)
  : status (rocksdb_t * list cf_handle_t) :=
  rocksdb_open_column_families env options path cf_names
    (repeat rocksdb_options_create 8).

(** What holds of every wrapper [caml_rocksdb_open] returns and every
    stub keeps: the open flag is set, the registry has its eight slots,
    and the read and write options are the fresh ones. *)
Definition well_formed (w : rocksdb_wrapper) : Prop :=
  is_open w = 1 /\ n_cf w = 8 /\ List.length (cf_handles w) = 8%nat /\
  read_options w = rocksdb_readoptions_create /\
  write_options w = rocksdb_writeoptions_create.

(** The batch [caml_rocksdb_batch_create] returns. *)
Definition fresh_batch : batch_val :=
  Some {| batch := Some rocksdb_writebatch_create; n_ops := 0 |}.

End Statements.

Section BatchStatements.

Context {E : Engine} {V : EngineViews E}.

(** The counter of a batch agrees, as a C [int], with the number of
    operations the engine's batch holds. *)
Definition counted (w : rocksdb_batch_wrapper) (wb : writebatch_t) : Prop :=
  batch w = Some wb /\
  n_ops w = wrap_int (Z.of_nat (List.length (pending wb))).

End BatchStatements.

(** ** Inputs for the examples *)

Module Sample.

(** A path with no store where the registry-complete open succeeds. *)
Definition fresh_env : Ref.env :=
  {| Ref.on_disk := None; Ref.registry_error := None; Ref.io_fault := None |}.

(** A path with no store where the registry-complete open reports an
    error, so that [caml_rocksdb_open] takes its second route. *)
Definition fallback_env : Ref.env :=
  {| Ref.on_disk := None;
     Ref.registry_error := Some "Invalid argument: Column families not opened";
     Ref.io_fault := None |}.

(** The same wrapper with a store whose device fails every call. *)
Definition failing (w : @rocksdb_wrapper RefEngine) : @rocksdb_wrapper RefEngine :=
  with_db w {| Ref.cfs := Ref.cfs (db w); Ref.fault := Some "IO error: No space left on device" |}.

Definition opened (e : Ref.env) : @db_val RefEngine :=
  match caml_rocksdb_open e true "/var/lib/atomspace" true 0 with
  | Ok d => d
  | Failure _ => None
  end.

(** The wrapper of the store opened at a fresh path. *)
Definition wrapper : @rocksdb_wrapper RefEngine :=
  Eval vm_compute in
    match opened fresh_env with
    | Some w => w
    | None =>
        {| db := {| Ref.cfs := []; Ref.fault := None |};
           options := rocksdb_options_create;
           write_options := tt;
           read_options := None;
           cf_handles := [];
           n_cf := 0;
           path := EmptyString;
           is_open := 0 |}
    end.

Definition batch_ab : @batch_val RefEngine :=
  run_calls fresh_batch [CallPut "a" "1"; CallDelete "z"; CallPut "b" "2"].

Definition cursor0 : @iter_val RefEngine :=
  match caml_rocksdb_iter_create (Some wrapper) true 0 with
  | Ok i => i
  | Failure _ => None
  end.

(** A handle after [caml_rocksdb_close]. *)
Definition closed : @db_val RefEngine := fst (caml_rocksdb_close (Some wrapper)).

(** [K] holds [V1] in namespace 1, a snapshot is taken, then [K] is
    overwritten with [V2]. *)
Definition after_v1 : @db_val RefEngine :=
  fst (caml_rocksdb_put (Some wrapper) 1 "K" "V1").

Definition held_snapshot : @snapshot_val RefEngine :=
  match caml_rocksdb_snapshot_create after_v1 true with
  | Ok s => s
  | Failure _ => None
  end.

Definition after_v2 : @db_val RefEngine :=
  fst (caml_rocksdb_put after_v1 1 "K" "V2").

(** A cursor over the single entry of namespace 1 that was put on the
    first entry and then stepped past the end. *)
Definition exhausted : @iter_val RefEngine :=
  match caml_rocksdb_iter_create after_v1 true 1 with
  | Ok i => fst (caml_rocksdb_iter_next (fst (caml_rocksdb_iter_seek_to_first i)))
  | Failure _ => None
  end.

Definition destroyed_batch : @batch_val RefEngine :=
  fst (caml_rocksdb_batch_destroy batch_ab).

(** A cursor created after the overwrite, put on the first entry. *)
Definition cursor_after_v2 : @iter_val RefEngine :=
  match caml_rocksdb_iter_create after_v2 true 1 with
  | Ok i => fst (caml_rocksdb_iter_seek_to_first i)
  | Failure _ => None
  end.

(** The keys "b", "a", "c" put in that order into the default namespace. *)
Definition with_bac : @db_val RefEngine :=
  fst (caml_rocksdb_put
         (fst (caml_rocksdb_put (fst (caml_rocksdb_put (Some wrapper) 0 "b" "2")) 0 "a" "1"))
         0 "c" "3").

Definition keys_from (i : @iter_val RefEngine) : list (behaviour string) :=
  let i1 := fst (caml_rocksdb_iter_seek_to_first i) in
  let i2 := fst (caml_rocksdb_iter_next i1) in
  let i3 := fst (caml_rocksdb_iter_next i2) in
  [caml_rocksdb_iter_key i1; caml_rocksdb_iter_key i2; caml_rocksdb_iter_key i3].

End Sample.

(** ** Sequences of calls on a database, and the last write of a batch *)

Section Sequences.

Context {E : Engine}.

(** The engine calls behind [caml_rocksdb_put] and
    [caml_rocksdb_delete] on an open database. *)
Definition engine_put (w : rocksdb_wrapper) (cf_index : Z) (key val : string)
  : rocksdb_t * option string :=
  match cf_handle_for w (Int_val cf_index) with
  | Some h => rocksdb_put_cf (db w) (write_options w) h key val
  | None => rocksdb_put (db w) (write_options w) key val
  end.

Definition engine_delete (w : rocksdb_wrapper) (cf_index : Z) (key : string)
  : rocksdb_t * option string :=
  match cf_handle_for w (Int_val cf_index) with
  | Some h => rocksdb_delete_cf (db w) (write_options w) h key
  | None => rocksdb_delete (db w) (write_options w) key
  end.

(** The create call the second route of [caml_rocksdb_open] makes for
    the [j]-th of [names], counted from 0, with what it returns: the
    store it is made on is the one the calls before it left. *)
Fixpoint nth_create_call (d : rocksdb_t) (o : rocksdb_options_t) (names : list string)
  (j : nat) : option (rocksdb_t * option cf_handle_t * option string) :=
  match names with
  | [] => None
  | name :: rest =>
      match j with
      | O => Some (rocksdb_create_column_family d o name)
      | S j' =>
          nth_create_call (fst (fst (rocksdb_create_column_family d o name))) o rest j'
      end
  end.

(** The stubs that take a database and hand it back. *)
Inductive db_call : Type :=
| DoPut (cf_idx : Z) (key val : string)
| DoDelete (cf_idx : Z) (key : string)
| DoBatchWrite (b : batch_val)
| DoCompactRange (cf_idx : Z)
| DoFlush.

Definition run_db_call (d : db_val) (c : db_call) : db_val * outcome unit :=
  match c with
  | DoPut cf_idx key val => caml_rocksdb_put d cf_idx key val
  | DoDelete cf_idx key => caml_rocksdb_delete d cf_idx key
  | DoBatchWrite b => caml_rocksdb_batch_write d b
  | DoCompactRange cf_idx => caml_rocksdb_compact_range d cf_idx
  | DoFlush => caml_rocksdb_flush d
  end.

(** The database after the calls [cs], whatever each of them returned. *)
Definition run_db_calls (d : db_val) (cs : list db_call) : db_val :=
  fold_left (fun d c => fst (run_db_call d c)) cs d.

(** What the operations [ops] leave under the key [k]: [Some (Some v)]
    when the last one that names [k] puts [v], [Some None] when it
    deletes [k], [None] when none of them names [k]. *)
Fixpoint last_write (ops : list batch_op) (k : string) : option (option string) :=
  match ops with
  | [] => None
  | op :: rest =>
      match last_write rest k with
      | Some r => Some r
      | None =>
          match op with
          | BPut key val => if String.eqb k key then Some (Some val) else None
          | BDelete key => if String.eqb k key then Some None else None
          end
      end
  end.





End Sequences.

(** A successful delete is committed: the documented behaviour of
    [rocksdb_delete] and [rocksdb_delete_cf] that the properties of
    [caml_rocksdb_delete] use. *)
Class EngineDeletes (E : Engine) (V : EngineViews E) : Prop := {
  delete_committed : forall d wo k d',
    rocksdb_delete d wo k = (d', None) ->
    committed d' None k = None;
  delete_cf_committed : forall d wo h k d',
    rocksdb_delete_cf d wo h k = (d', None) ->
    committed d' (Some h) k = None
}.

(** ** The build without [HAVE_ROCKSDB] *)

Module Unavailable.

Section Fallback.

Context {E : Engine}.

(** [rocksdb_not_available()], which raises and does not return. *)
Definition rocksdb_not_available {A : Type} : outcome A :=
  Failure "RocksDB native bindings not available. Compile with -DHAVE_ROCKSDB and link with -lrocksdb".

Definition caml_rocksdb_open (path : string) (create_if_missing : bool) (compression : Z)
  : outcome db_val := rocksdb_not_available.

Definition caml_rocksdb_close (d : db_val) : db_val * outcome unit :=
  (d, rocksdb_not_available).

Definition caml_rocksdb_is_open (d : db_val) : outcome bool := Ok false.

Definition caml_rocksdb_put (d : db_val) (cf_index : Z) (key val : string)
  : db_val * outcome unit := (d, rocksdb_not_available).

Definition caml_rocksdb_get (d : db_val) (cf_index : Z) (key : string)
  : outcome (option string) := rocksdb_not_available.

Definition caml_rocksdb_delete (d : db_val) (cf_index : Z) (key : string)
  : db_val * outcome unit := (d, rocksdb_not_available).

Definition caml_rocksdb_exists (d : db_val) (cf_index : Z) (key : string)
  : outcome bool := rocksdb_not_available.

Definition caml_rocksdb_batch_create : outcome batch_val := rocksdb_not_available.

Definition caml_rocksdb_batch_put (b : batch_val) (key val : string)
  : batch_val * outcome unit := (b, rocksdb_not_available).

Definition caml_rocksdb_batch_delete (b : batch_val) (key : string)
  : batch_val * outcome unit := (b, rocksdb_not_available).

Definition caml_rocksdb_batch_clear (b : batch_val) : batch_val * outcome unit :=
  (b, rocksdb_not_available).

Definition caml_rocksdb_batch_count (b : batch_val) : outcome Z := Ok 0.

Definition caml_rocksdb_batch_write (d : db_val) (b : batch_val)
  : db_val * outcome unit := (d, rocksdb_not_available).

Definition caml_rocksdb_batch_destroy (b : batch_val) : batch_val * outcome unit :=
  (b, Ok tt).

Definition caml_rocksdb_iter_create (d : db_val) (cf_idx : Z) : outcome iter_val :=
  rocksdb_not_available.

Definition caml_rocksdb_iter_seek_to_first (i : iter_val) : iter_val * outcome unit :=
  (i, rocksdb_not_available).

Definition caml_rocksdb_iter_seek_to_last (i : iter_val) : iter_val * outcome unit :=
  (i, rocksdb_not_available).

Definition caml_rocksdb_iter_seek (i : iter_val) (key : string) : iter_val * outcome unit :=
  (i, rocksdb_not_available).

Definition caml_rocksdb_iter_next (i : iter_val) : iter_val * outcome unit :=
  (i, rocksdb_not_available).

Definition caml_rocksdb_iter_prev (i : iter_val) : iter_val * outcome unit :=
  (i, rocksdb_not_available).

Definition caml_rocksdb_iter_valid (i : iter_val) : outcome bool := Ok false.

Definition caml_rocksdb_iter_key (i : iter_val) : outcome string := rocksdb_not_available.

Definition caml_rocksdb_iter_value (i : iter_val) : outcome string := rocksdb_not_available.

Definition caml_rocksdb_iter_destroy (i : iter_val) : iter_val * outcome unit :=
  (i, Ok tt).

Definition caml_rocksdb_snapshot_create (d : db_val) : outcome snapshot_val :=
  rocksdb_not_available.

Definition caml_rocksdb_snapshot_release (s : snapshot_val) : snapshot_val * outcome unit :=
  (s, Ok tt).

Definition caml_rocksdb_get_property (d : db_val) (property : string)
  : outcome (option string) := Ok None.

Definition caml_rocksdb_compact_range (d : db_val) (cf_idx : Z) : db_val * outcome unit :=
  (d, rocksdb_not_available).

Definition caml_rocksdb_flush (d : db_val) : db_val * outcome unit :=
  (d, rocksdb_not_available).

Definition caml_rocksdb_backend_available : outcome bool := Ok false.

End Fallback.

End Unavailable.

(** ** The context stubs of [ggml_native.c]

    The part of [plugins/cognitive_engine/ggml_native.c] that manages
    contexts: backend detection, [init], [free], the memory and thread
    accessors, the global context table, and the two graph stubs that
    read a context.  The tensor library enters as an interface, as the
    storage engine does. *)

Module Ggml.

Definition GGML_MAX_CONTEXTS : Z := 64.

Definition BACKEND_CPU : Z := 0.
Definition BACKEND_CUDA : Z := 1.
Definition BACKEND_METAL : Z := 2.
Definition BACKEND_VULKAN : Z := 3.
Definition BACKEND_STUB : Z := 99.

(** The preprocessor symbols the file tests. *)
Record build : Type := {
  HAVE_GGML : bool;
  GGML_USE_CUDA : bool;
  GGML_USE_METAL : bool
}.

Definition caml_ggml_native_backend_type (b : build) : outcome Z :=
  if HAVE_GGML b then
    if GGML_USE_CUDA b then Ok BACKEND_CUDA
    else if GGML_USE_METAL b then Ok BACKEND_METAL
    else Ok BACKEND_CPU
  else Ok BACKEND_STUB.

Definition caml_ggml_native_backend_name (b : build) : outcome string :=
  if HAVE_GGML b then
    if GGML_USE_CUDA b then Ok "CUDA"
    else if GGML_USE_METAL b then Ok "Metal"
    else Ok "CPU"
  else Ok "Stub".

(** The calls of the tensor library the context stubs make.
    [ggml_init] takes the [mem_size] of its parameters and returns NULL
    as [None]. *)
Class Library : Type := {
  ggml_context : Type;
  ggml_cgraph : Type;
  ggml_init : Z -> option ggml_context;
  ggml_used_mem : ggml_context -> Z;
  ggml_graph_compute_with_ctx :
    ggml_context -> ggml_cgraph -> Z -> ggml_context * ggml_cgraph
}.

Section Contexts.

Context {L : Library}.

Record ggml_ctx_wrapper : Type := {
  ctx : option ggml_context;
  mem_size : Z;
  backend : Z;
  n_threads : Z;
  ref_count : Z
}.

Record ggml_graph_wrapper : Type := {
  graph : option ggml_cgraph;
  ctx_id : Z;
  n_nodes : Z
}.

Definition ctx_val : Type := option ggml_ctx_wrapper.
Definition graph_val : Type := option ggml_graph_wrapper.

(** [g_contexts] and [g_next_ctx_id].  A slot holds the wrapper as it
    was registered; no stub reads the table. *)
Record registry : Type := {
  g_contexts : list (option ggml_ctx_wrapper);
  g_next_ctx_id : Z
}.

Definition initial_registry : registry :=
  {| g_contexts := repeat None 64; g_next_ctx_id := 0 |}.

Fixpoint set_nth {A : Type} (l : list A) (n : nat) (a : A) : list A :=
  match l, n with
  | [], _ => []
  | _ :: rest, O => a :: rest
  | x :: rest, S n' => x :: set_nth rest n' a
  end.

(** [int ctx_id = g_next_ctx_id++; if (ctx_id < GGML_MAX_CONTEXTS)
    g_contexts[ctx_id] = wrapper;].  A negative [ctx_id], which the
    counter reaches only by wrapping, would index before the table; the
    table is then left as it is. *)
Definition register (r : registry) (w : ggml_ctx_wrapper) : registry :=
  let ctx_id := g_next_ctx_id r in
  {| g_contexts :=
       if (ctx_id <? GGML_MAX_CONTEXTS) && (0 <=? ctx_id)
       then set_nth (g_contexts r) (Z.to_nat ctx_id) (Some w)
       else g_contexts r;
     g_next_ctx_id := wrap_int (ctx_id + 1) |}.

(** [ggml_native_not_available] of the build without [HAVE_GGML]. *)
Definition ggml_native_not_available : string :=
  "GGML native bindings not available. Compile with -DHAVE_GGML and link with -lggml".

(** [size_t size = Long_val(mem_size)]: the OCaml integer as an unsigned
    64-bit number. *)
Definition size_of_long (v : Z) : Z := v mod 2 ^ 64.

(** [Val_long(x)] for a [size_t]: the OCaml integer keeps the low 63
    bits, signed. *)
Definition Val_long (x : Z) : Z := (x + 2 ^ 62) mod 2 ^ 63 - 2 ^ 62.

(** [caml_ggml_native_init]: the stub of the build without [HAVE_GGML]
    raises; the other decodes its two arguments and builds the
    wrapper. *)
Definition caml_ggml_native_init (b : build) (r : registry) (malloc_ok : bool)
  (mem_size_v n_threads_v : Z) : registry * outcome ctx_val :=
  if HAVE_GGML b then
    let size := size_of_long mem_size_v in
    let threads := Int_val n_threads_v in
    match ggml_init size with
    | None => (r, Failure "ggml_native_init: failed to initialize context")
    | Some c =>
        if malloc_ok then
          let wrapper :=
            {| ctx := Some c;
               mem_size := size;
               backend := if GGML_USE_CUDA b then BACKEND_CUDA
                          else if GGML_USE_METAL b then BACKEND_METAL
                          else BACKEND_CPU;
               n_threads := if 0 <? threads then threads else 4;
               ref_count := 1 |} in
          (register r wrapper, Ok (Some wrapper))
        else (r, Failure "ggml_native_init: failed to allocate wrapper")
    end
  else (r, Failure ggml_native_not_available).

Definition caml_ggml_native_free (c : ctx_val) : ctx_val * outcome unit :=
  match c with
  | None => (c, Ok tt)
  | Some wrapper =>
      match ctx wrapper with
      | None => (c, Ok tt)
      | Some _ =>
          let count := wrap_int (ref_count wrapper - 1) in
          if count <=? 0 then (None, Ok tt)
          else (Some {| ctx := ctx wrapper;
                        mem_size := mem_size wrapper;
                        backend := backend wrapper;
                        n_threads := n_threads wrapper;
                        ref_count := count |}, Ok tt)
      end
  end.

Definition caml_ggml_native_used_mem (c : ctx_val) : outcome Z :=
  match c with
  | None => Failure "ggml_native_used_mem: invalid context"
  | Some wrapper =>
      match ctx wrapper with
      | None => Failure "ggml_native_used_mem: invalid context"
      | Some g => Ok (Val_long (ggml_used_mem g))
      end
  end.

Definition caml_ggml_native_get_mem_size (c : ctx_val) : outcome Z :=
  match c with
  | None => Failure "ggml_native_get_mem_size: invalid context"
  | Some wrapper => Ok (Val_long (mem_size wrapper))
  end.

Definition caml_ggml_native_set_n_threads (c : ctx_val) (n_threads_v : Z)
  : ctx_val * outcome unit :=
  match c with
  | None => (c, Ok tt)
  | Some wrapper =>
      (Some {| ctx := ctx wrapper;
               mem_size := mem_size wrapper;
               backend := backend wrapper;
               n_threads := Int_val n_threads_v;
               ref_count := ref_count wrapper |}, Ok tt)
  end.

Definition caml_ggml_native_graph_compute (c : ctx_val) (g : graph_val)
  : ctx_val * graph_val * outcome unit :=
  match c, g with
  | Some ctx_wrapper, Some g_wrapper =>
      match ctx ctx_wrapper, graph g_wrapper with
      | Some gc, Some gg =>
          let '(gc', gg') := ggml_graph_compute_with_ctx gc gg (n_threads ctx_wrapper) in
          (Some {| ctx := Some gc';
                   mem_size := mem_size ctx_wrapper;
                   backend := backend ctx_wrapper;
                   n_threads := n_threads ctx_wrapper;
                   ref_count := ref_count ctx_wrapper |},
           Some {| graph := Some gg'; ctx_id := ctx_id g_wrapper; n_nodes := n_nodes g_wrapper |},
           Ok tt)
      | _, _ => (c, g, Failure "ggml_native_graph_compute: invalid argument")
      end
  | _, _ => (c, g, Failure "ggml_native_graph_compute: invalid argument")
  end.

Definition caml_ggml_native_graph_n_nodes (g : graph_val) : outcome Z :=
  match g with
  | None => Failure "ggml_native_graph_n_nodes: invalid graph"
  | Some g_wrapper =>
      match graph g_wrapper with
      | None => Failure "ggml_native_graph_n_nodes: invalid graph"
      | Some _ => Ok (n_nodes g_wrapper)
      end
  end.

End Contexts.

(** A library whose contexts only record the memory they use. *)
#[export] Instance counting : Library := {|
  ggml_context := Z;
  ggml_cgraph := list Z;
  ggml_init := fun size => if 0 <? size then Some 0 else None;
  ggml_used_mem := fun c => c;
  ggml_graph_compute_with_ctx := fun c g threads => (c + Z.of_nat (List.length g), threads :: g)
|}.

End Ggml.

(** * Properties of the stubs *)

(** ** Facts that hold over every engine *)

Section StubProperties.

Context {E : Engine}.

Lemma with_db_same (w : rocksdb_wrapper) : with_db w (db w) = w.
Proof. destruct w; reflexivity. Qed.

Lemma cf_handle_for_out_of_range (w : rocksdb_wrapper) (cf_idx : Z) :
  out_of_range w cf_idx -> cf_handle_for w cf_idx = None.
Proof.
  unfold out_of_range, cf_handle_for. intros [H | [H | H]].
  - replace (0 <? cf_idx) with false by (symmetry; apply Z.ltb_ge; lia).
    reflexivity.
  - replace (cf_idx <? n_cf w) with false by (symmetry; apply Z.ltb_ge; lia).
    rewrite andb_false_r. reflexivity.
  - rewrite H. destruct ((0 <? cf_idx) && (cf_idx <? n_cf w)); reflexivity.
Qed.

Lemma cf_handle_for_names (w : rocksdb_wrapper) (cf_idx : Z) (h : cf_handle_t) :
  names_handle w cf_idx h -> cf_handle_for w cf_idx = Some h.
Proof.
  unfold names_handle, cf_handle_for. intros [[H0 H1] H].
  replace (0 <? cf_idx) with true by (symmetry; apply Z.ltb_lt; lia).
  replace (cf_idx <? n_cf w) with true by (symmetry; apply Z.ltb_lt; lia).
  exact H.
Qed.

Lemma cf_handle_for_cases (w : rocksdb_wrapper) (cf_idx : Z) :
  match cf_handle_for w cf_idx with
  | Some h => names_handle w cf_idx h
  | None => out_of_range w cf_idx
  end.
Proof.
  unfold cf_handle_for, names_handle, out_of_range.
  destruct (0 <? cf_idx) eqn:H0; simpl.
  - destruct (cf_idx <? n_cf w) eqn:H1; simpl.
    + apply Z.ltb_lt in H0. apply Z.ltb_lt in H1.
      destruct (nth (Z.to_nat cf_idx) (cf_handles w) None) eqn:Hn.
      * repeat split; assumption.
      * right; right; reflexivity.
    + apply Z.ltb_ge in H1. right; left; assumption.
  - apply Z.ltb_ge in H0. left; assumption.
Qed.

(** An index that fits a C [int] is decoded to itself. *)
Lemma Int_val_in_range (v : Z) : INT_MIN <= v <= INT_MAX -> Int_val v = v.
Proof.
  unfold Int_val, wrap_int, INT_MIN, INT_MAX. intros H.
  rewrite Z.mod_small by lia. lia.
Qed.

(** Whatever is supplied, the decoded index is a C [int]. *)
Lemma Int_val_is_int (v : Z) : INT_MIN <= Int_val v <= INT_MAX.
Proof.
  unfold Int_val, wrap_int.
  assert (H : 0 <= (v - INT_MIN) mod 2 ^ 32 < 2 ^ 32)
    by (apply Z.mod_pos_bound; reflexivity).
  unfold INT_MIN, INT_MAX in *. lia.
Qed.

Lemma not_open_false (w : rocksdb_wrapper) :
  is_open w <> 0 -> (is_open w =? 0) = false.
Proof. intros H. apply Z.eqb_neq. exact H. Qed.

Lemma close_not_open (d : db_val) : not_open (fst (caml_rocksdb_close d)) = true.
Proof.
  unfold caml_rocksdb_close. destruct (not_open d) eqn:H; simpl.
  - exact H.
  - reflexivity.
Qed.

(** C6.  Against a handle that is closed or was never opened (a NULL
    wrapper, as [caml_rocksdb_close] leaves it, or a wrapper whose
    [is_open] flag is zero) each of put, get, delete, exists,
    batch_write, iter_create, snapshot_create, get_property,
    compact_range and flush raises its "database not open" failure, and
    the handle is left as it was. *)
Theorem not_open_is_surfaced (d : db_val) (cf_idx : Z) (key val property : string)
  (b : batch_val) (malloc_ok : bool) :
  not_open d = true ->
  caml_rocksdb_put d cf_idx key val = (d, Failure "rocksdb_put: database not open") /\
  caml_rocksdb_get d cf_idx key = Failure "rocksdb_get: database not open" /\
  caml_rocksdb_delete d cf_idx key = (d, Failure "rocksdb_delete: database not open") /\
  caml_rocksdb_exists d cf_idx key = Failure "rocksdb_exists: database not open" /\
  caml_rocksdb_batch_write d b = (d, Failure "rocksdb_batch_write: database not open") /\
  caml_rocksdb_iter_create d malloc_ok cf_idx = Failure "rocksdb_iter_create: database not open" /\
  caml_rocksdb_snapshot_create d malloc_ok = Failure "rocksdb_snapshot_create: database not open" /\
  caml_rocksdb_get_property d property = Failure "rocksdb_get_property: database not open" /\
  caml_rocksdb_compact_range d cf_idx = (d, Failure "rocksdb_compact_range: database not open") /\
  caml_rocksdb_flush d = (d, Failure "rocksdb_flush: database not open").
Proof.
  intros H. destruct d as [w |]; simpl in H.
  - unfold caml_rocksdb_put, caml_rocksdb_get, caml_rocksdb_delete, caml_rocksdb_exists,
      caml_rocksdb_batch_write, caml_rocksdb_iter_create, caml_rocksdb_snapshot_create,
      caml_rocksdb_get_property, caml_rocksdb_compact_range, caml_rocksdb_flush.
    rewrite H. repeat split.
  - repeat split.
Qed.

(** C7, as the stubs have it.  Each point operation decodes the supplied
    index with [Int_val], which keeps its low 32 bits as a C [int], and
    chooses the namespace by the decoded index.  On an open database the
    operation goes to the default namespace (the engine call without a
    column family) when the decoded index is zero or negative, at or
    beyond the registered count, or names a NULL slot, and to the
    namespace of the handle when the decoded index lies strictly between
    0 and the registered count and its slot holds a live handle.  A
    supplied index that fits a C [int] is decoded to itself. *)
Theorem namespace_of_index (w : rocksdb_wrapper) (cf_index : Z) (key val : string) :
  is_open w <> 0 ->
  (out_of_range w (Int_val cf_index) ->
     caml_rocksdb_put (Some w) cf_index key val =
       surfaced "rocksdb_put" w (rocksdb_put (db w) (write_options w) key val) /\
     caml_rocksdb_delete (Some w) cf_index key =
       surfaced "rocksdb_delete" w (rocksdb_delete (db w) (write_options w) key) /\
     engine_lookup w cf_index key = rocksdb_get (db w) (read_options w) key /\
     caml_rocksdb_get (Some w) cf_index key = caml_rocksdb_get (Some w) 0 key /\
     caml_rocksdb_exists (Some w) cf_index key = caml_rocksdb_exists (Some w) 0 key) /\
  (forall h, names_handle w (Int_val cf_index) h ->
     caml_rocksdb_put (Some w) cf_index key val =
       surfaced "rocksdb_put" w (rocksdb_put_cf (db w) (write_options w) h key val) /\
     caml_rocksdb_delete (Some w) cf_index key =
       surfaced "rocksdb_delete" w (rocksdb_delete_cf (db w) (write_options w) h key) /\
     engine_lookup w cf_index key = rocksdb_get_cf (db w) (read_options w) h key) /\
  (let r := engine_lookup w cf_index key in
   caml_rocksdb_get (Some w) cf_index key =
     match snd r with
     | Some e => Failure (snprintf256 "rocksdb_get failed: " e)
     | None => Ok (fst r)
     end /\
   caml_rocksdb_exists (Some w) cf_index key =
     match snd r, fst r with
     | None, Some _ => Ok true
     | _, _ => Ok false
     end) /\
  (INT_MIN <= cf_index <= INT_MAX -> Int_val cf_index = cf_index) /\
  INT_MIN <= Int_val cf_index <= INT_MAX.
Proof.
  intros Hopen. apply not_open_false in Hopen.
  assert (Hzero : cf_handle_for w (Int_val 0) = None) by reflexivity.
  pose proof (Int_val_is_int cf_index) as Hint.
  unfold caml_rocksdb_put, caml_rocksdb_delete, caml_rocksdb_get, caml_rocksdb_exists,
    engine_lookup, surfaced.
  rewrite Hopen, Hzero. repeat split; try (apply Int_val_in_range; assumption);
    try (apply Hint).
  - apply cf_handle_for_out_of_range in H. rewrite H.
    destruct (rocksdb_put (db w) (write_options w) key val) as [d' [e |]]; reflexivity.
  - apply cf_handle_for_out_of_range in H. rewrite H.
    destruct (rocksdb_delete (db w) (write_options w) key) as [d' [e |]]; reflexivity.
  - apply cf_handle_for_out_of_range in H. rewrite H. reflexivity.
  - apply cf_handle_for_out_of_range in H. rewrite H. reflexivity.
  - apply cf_handle_for_out_of_range in H. rewrite H. reflexivity.
  - apply cf_handle_for_names in H. rewrite H.
    destruct (rocksdb_put_cf (db w) (write_options w) h key val) as [d' [e |]]; reflexivity.
  - apply cf_handle_for_names in H. rewrite H.
    destruct (rocksdb_delete_cf (db w) (write_options w) h key) as [d' [e |]]; reflexivity.
  - apply cf_handle_for_names in H. rewrite H. reflexivity.
  - destruct (cf_handle_for w (Int_val cf_index)) as [h |].
    + destruct (rocksdb_get_cf (db w) (read_options w) h key) as [v [e |]]; reflexivity.
    + destruct (rocksdb_get (db w) (read_options w) key) as [v [e |]]; reflexivity.
  - destruct (cf_handle_for w (Int_val cf_index)) as [h |].
    + destruct (rocksdb_get_cf (db w) (read_options w) h key) as [[v |] [e |]]; reflexivity.
    + destruct (rocksdb_get (db w) (read_options w) key) as [[v |] [e |]]; reflexivity.
Qed.

End StubProperties.

Section Handles.

Context {E : Engine}.

(** C5.  On an open database [exists] never raises: a failed engine
    lookup is answered [false] (where [get] raises the engine's error),
    and when the lookup succeeds [exists] answers [true] exactly when
    [get] returns a present value. *)
Theorem exists_downgrades_errors (w : rocksdb_wrapper) (cf_idx : Z) (key : string) :
  is_open w <> 0 ->
  (exists b, caml_rocksdb_exists (Some w) cf_idx key = Ok b) /\
  (forall val e, engine_lookup w cf_idx key = (val, Some e) ->
     caml_rocksdb_exists (Some w) cf_idx key = Ok false /\
     caml_rocksdb_get (Some w) cf_idx key = Failure (snprintf256 "rocksdb_get failed: " e)) /\
  (forall val, engine_lookup w cf_idx key = (val, None) ->
     caml_rocksdb_get (Some w) cf_idx key = Ok val /\
     caml_rocksdb_exists (Some w) cf_idx key =
       Ok (match val with Some _ => true | None => false end)) /\
  (caml_rocksdb_exists (Some w) cf_idx key = Ok true <->
   exists v, caml_rocksdb_get (Some w) cf_idx key = Ok (Some v)).
Proof.
  intros Hopen. apply not_open_false in Hopen.
  unfold caml_rocksdb_exists, caml_rocksdb_get, engine_lookup. rewrite Hopen.
  destruct (match cf_handle_for w (Int_val cf_idx) with
            | Some h => rocksdb_get_cf (db w) (read_options w) h key
            | None => rocksdb_get (db w) (read_options w) key
            end) as [[v |] [e |]]; repeat split; intros;
    repeat match goal with
      | H : exists _, _ |- _ => destruct H
      | H : (_, _) = (_, _) |- _ => inversion H; subst; clear H
      end;
    try reflexivity; try discriminate; try (eexists; reflexivity).
Qed.

(** The accessors test the handle and nothing else.  They raise
    "invalid iterator" exactly when the handle holds no engine iterator
    (after [caml_rocksdb_iter_destroy]), and [valid] is then false.  On
    a live handle they never raise: they make the engine call whatever
    the position of the cursor, and return its result where it has
    one. *)
Lemma iter_accessors_check_the_handle_only (i : iter_val) :
  (forall w it, i = Some w -> iter w = Some it ->
     caml_rocksdb_iter_valid i = Ok (rocksdb_iter_valid it) /\
     (forall msg, caml_rocksdb_iter_key i <> Defined (Failure msg)) /\
     (forall msg, caml_rocksdb_iter_value i <> Defined (Failure msg)) /\
     (forall key, rocksdb_iter_key it = Some key ->
        caml_rocksdb_iter_key i = Defined (Ok key)) /\
     (forall val, rocksdb_iter_value it = Some val ->
        caml_rocksdb_iter_value i = Defined (Ok val)) /\
     (rocksdb_iter_key it = None -> caml_rocksdb_iter_key i = Undefined) /\
     (rocksdb_iter_value it = None -> caml_rocksdb_iter_value i = Undefined)) /\
  ((i = None \/ exists w, i = Some w /\ iter w = None) ->
     caml_rocksdb_iter_valid i = Ok false /\
     caml_rocksdb_iter_key i = Defined (Failure "rocksdb_iter_key: invalid iterator") /\
     caml_rocksdb_iter_value i = Defined (Failure "rocksdb_iter_value: invalid iterator")) /\
  fst (caml_rocksdb_iter_destroy i) = None.
Proof.
  unfold caml_rocksdb_iter_valid, caml_rocksdb_iter_key, caml_rocksdb_iter_value.
  split; [| split].
  - intros w it Hi Hit. subst i. rewrite Hit.
    split; [reflexivity |].
    split; [intros msg; destruct (rocksdb_iter_key it); discriminate |].
    split; [intros msg; destruct (rocksdb_iter_value it); discriminate |].
    split; [intros key H; rewrite H; reflexivity |].
    split; [intros val H; rewrite H; reflexivity |].
    split; intros H; rewrite H; reflexivity.
  - intros [H | [w [H Hw]]]; subst i; [| rewrite Hw]; repeat split.
  - destruct i; reflexivity.
Qed.

(** The in-memory engine keeps to the precondition of the accessors:
    they have a result exactly on a valid cursor. *)
Lemma ref_accessors_need_valid (c : Ref.cursor) :
  (Ref.iter_valid c = false <->
   @rocksdb_iter_key RefEngine c = None /\ @rocksdb_iter_value RefEngine c = None) /\
  (Ref.iter_valid c = true <->
   exists key val,
     @rocksdb_iter_key RefEngine c = Some key /\
     @rocksdb_iter_value RefEngine c = Some val).
Proof.
  simpl. unfold Ref.iter_valid, Ref.iter_entry.
  destruct (Ref.pos c) as [n |]; simpl; split; split;
    try (intros H; discriminate H);
    try (intros [H _]; discriminate H);
    try (intros [key [val [H _]]]; discriminate H);
    try reflexivity.
  - intros _. eexists. eexists. split; reflexivity.
  - intros _. split; reflexivity.
Qed.

(** C9, as the stubs have it.  Destroying or releasing never raises: the
    first call returns unit and leaves the handle NULL (for a snapshot,
    when it holds a snapshot and a parent), and a second call on the
    handle it left changes nothing and returns unit as well. *)
Theorem destroy_again_returns_unit (b : batch_val) (i : iter_val) (s : snapshot_val) :
  (caml_rocksdb_batch_destroy b = (None, Ok tt) /\
   caml_rocksdb_batch_destroy (fst (caml_rocksdb_batch_destroy b)) = (None, Ok tt)) /\
  (caml_rocksdb_iter_destroy i = (None, Ok tt) /\
   caml_rocksdb_iter_destroy (fst (caml_rocksdb_iter_destroy i)) = (None, Ok tt)) /\
  (snd (caml_rocksdb_snapshot_release s) = Ok tt /\
   caml_rocksdb_snapshot_release (fst (caml_rocksdb_snapshot_release s)) =
     (fst (caml_rocksdb_snapshot_release s), Ok tt) /\
   forall w snap parent,
     s = Some w -> snapshot w = Some snap -> db_wrapper w = Some parent ->
     caml_rocksdb_snapshot_release s = (None, Ok tt) /\
     caml_rocksdb_snapshot_release None = (None, Ok tt)).
Proof.
  repeat split.
  - destruct b; reflexivity.
  - destruct b; reflexivity.
  - destruct i; reflexivity.
  - destruct i; reflexivity.
  - destruct s as [w |]; simpl; [| reflexivity].
    destruct (snapshot w), (db_wrapper w); reflexivity.
  - destruct s as [w |]; simpl; [| reflexivity].
    destruct (snapshot w) eqn:Hs, (db_wrapper w) eqn:Hd; simpl;
      rewrite ?Hs, ?Hd; reflexivity.
  - subst s. simpl. rewrite H0, H1. reflexivity.
Qed.

(** C10, as the stubs have it.  On a destroyed batch, count returns 0
    and destroy returns unit, neither raising; put, delete and clear
    raise "invalid batch"; write raises "invalid batch" against an open
    database and "database not open" against one that is not open. *)
Theorem destroyed_batch_calls (b0 : batch_val) (d : db_val) (key val : string) :
  let b := fst (caml_rocksdb_batch_destroy b0) in
  caml_rocksdb_batch_count b = Ok 0 /\
  caml_rocksdb_batch_destroy b = (b, Ok tt) /\
  caml_rocksdb_batch_put b key val = (b, Failure "rocksdb_batch_put: invalid batch") /\
  caml_rocksdb_batch_delete b key = (b, Failure "rocksdb_batch_delete: invalid batch") /\
  caml_rocksdb_batch_clear b = (b, Failure "rocksdb_batch_clear: invalid batch") /\
  (not_open d = false ->
   caml_rocksdb_batch_write d b = (d, Failure "rocksdb_batch_write: invalid batch")) /\
  (not_open d = true ->
   caml_rocksdb_batch_write d b = (d, Failure "rocksdb_batch_write: database not open")).
Proof.
  assert (Hb : fst (caml_rocksdb_batch_destroy b0) = None) by (destruct b0; reflexivity).
  simpl. rewrite Hb. repeat split.
  - intros H. destruct d as [w |]; simpl in H; [| discriminate H].
    unfold caml_rocksdb_batch_write. rewrite H. reflexivity.
  - intros H. destruct d as [w |]; simpl in H; [| reflexivity].
    unfold caml_rocksdb_batch_write. rewrite H. reflexivity.
Qed.

Lemma create_column_families_length (d : rocksdb_t) (o : rocksdb_options_t)
  (names : list string) :
  List.length (snd (create_column_families d o names)) = List.length names.
Proof.
  revert d. induction names as [| name rest IH]; intros d; simpl.
  - reflexivity.
  - destruct (rocksdb_create_column_family d o name) as [[d1 h] err].
    specialize (IH d1).
    destruct (create_column_families d1 o rest) as [d2 hs]. simpl in *.
    rewrite IH. reflexivity.
Qed.

End Handles.

Section Opening.

Context {E : Engine}.

Lemma open_well_formed (env : env_t) (malloc_ok : bool) (path : string)
  (create_if_missing : bool) (compression : Z) (w : rocksdb_wrapper) :
  caml_rocksdb_open env malloc_ok path create_if_missing compression = Ok (Some w) ->
  well_formed w.
Proof.
  unfold caml_rocksdb_open, well_formed.
  destruct (rocksdb_open_column_families _ _ _ _ _) as [[d0 hs0] | e0].
  - destruct malloc_ok; intros H; inversion H; subst. repeat split.
  - destruct (rocksdb_open _ _ _) as [d1 | e1]; [| intros H; discriminate H].
    pose proof (create_column_families_length d1
                  (open_options create_if_missing compression) (skipn 1 cf_names)) as Hlen.
    destruct (create_column_families _ _ _) as [d2 hs2].
    destruct malloc_ok; intros H; inversion H; subst. repeat split.
    simpl in *. rewrite Hlen. reflexivity.
Qed.

(** The stubs that hand the database back change nothing of the wrapper
    but the state of the store. *)
Lemma stubs_keep_wrapper (w : rocksdb_wrapper) (cf_idx : Z) (key val : string)
  (b : batch_val) :
  (exists d, fst (caml_rocksdb_put (Some w) cf_idx key val) = Some (with_db w d)) /\
  (exists d, fst (caml_rocksdb_delete (Some w) cf_idx key) = Some (with_db w d)) /\
  (exists d, fst (caml_rocksdb_batch_write (Some w) b) = Some (with_db w d)) /\
  (exists d, fst (caml_rocksdb_compact_range (Some w) cf_idx) = Some (with_db w d)) /\
  (exists d, fst (caml_rocksdb_flush (Some w)) = Some (with_db w d)).
Proof.
  assert (Hsame : exists d, Some w = Some (with_db w d))
    by (exists (db w); rewrite with_db_same; reflexivity).
  unfold caml_rocksdb_put, caml_rocksdb_delete, caml_rocksdb_batch_write,
    caml_rocksdb_compact_range, caml_rocksdb_flush.
  destruct (is_open w =? 0); [repeat split; exact Hsame |].
  repeat split.
  - destruct (cf_handle_for w (Int_val cf_idx)) as [h |].
    + destruct (rocksdb_put_cf _ _ _ _ _) as [d [e |]]; exists d; reflexivity.
    + destruct (rocksdb_put _ _ _ _) as [d [e |]]; exists d; reflexivity.
  - destruct (cf_handle_for w (Int_val cf_idx)) as [h |].
    + destruct (rocksdb_delete_cf _ _ _ _) as [d [e |]]; exists d; reflexivity.
    + destruct (rocksdb_delete _ _ _) as [d [e |]]; exists d; reflexivity.
  - destruct b as [bw |]; [| exact Hsame].
    destruct (batch bw) as [wb |]; [| exact Hsame].
    destruct (rocksdb_write _ _ _) as [d [e |]]; exists d; reflexivity.
  - eexists. reflexivity.
  - destruct (rocksdb_flush _ _) as [d [e |]]; exists d; reflexivity.
Qed.

Lemma with_db_well_formed (w : rocksdb_wrapper) (d : rocksdb_t) :
  well_formed w -> well_formed (with_db w d).
Proof. intros H. exact H. Qed.

(** C4, as the stub has it.  [open] first tries the registry-complete
    open with the eight names.  When that reports an error it opens the
    store plainly and then issues one create call for each of the seven
    names after the default one, in registry order, leaving slot 0 of
    the registry NULL.  It fails only with the error text of the plain
    open or with the allocation failure, and a handle it returns is a
    filled wrapper: open flag set, eight slots, fresh read options.
    The engine and the wrapper get the path as the C string the stub
    reads ([c_string]). *)
Theorem open_routes (env : env_t) (malloc_ok : bool) (path : string)
  (create_if_missing : bool) (compression : Z) :
  let options := open_options create_if_missing compression in
  (forall d hs, first_attempt env options (c_string path) = Done (d, hs) ->
     caml_rocksdb_open env true path create_if_missing compression =
       Ok (Some (opened_wrapper options (c_string path) d
                   (map (fun i => nth_error hs i) (seq 0 8))))) /\
  (forall e d, first_attempt env options (c_string path) = Err e ->
     rocksdb_open env options (c_string path) = Done d ->
     let r := create_column_families d options
                [CF_NODES; CF_LINKS; CF_INCOMING; CF_OUTGOING;
                 CF_ATTENTION; CF_TRUTH_VALUES; CF_METADATA] in
     List.length (snd r) = 7%nat /\
     caml_rocksdb_open env true path create_if_missing compression =
       Ok (Some (opened_wrapper options (c_string path) (fst r) (None :: snd r)))) /\
  (forall e e', first_attempt env options (c_string path) = Err e ->
     rocksdb_open env options (c_string path) = Err e' ->
     caml_rocksdb_open env malloc_ok path create_if_missing compression =
       Failure (snprintf256 "rocksdb_open failed: " e')) /\
  (forall msg,
     caml_rocksdb_open env malloc_ok path create_if_missing compression = Failure msg ->
     (malloc_ok = false /\ msg = "rocksdb_open: failed to allocate wrapper") \/
     (exists e e', first_attempt env options (c_string path) = Err e /\
        rocksdb_open env options (c_string path) = Err e' /\
        msg = snprintf256 "rocksdb_open failed: " e')) /\
  (forall h,
     caml_rocksdb_open env malloc_ok path create_if_missing compression = Ok h ->
     exists w, h = Some w /\ is_open w = 1 /\ n_cf w = 8 /\
       List.length (cf_handles w) = 8%nat /\
       read_options w = rocksdb_readoptions_create).
Proof.
  intros options. unfold first_attempt, caml_rocksdb_open. fold options.
  change (skipn 1 cf_names) with
    [CF_NODES; CF_LINKS; CF_INCOMING; CF_OUTGOING;
     CF_ATTENTION; CF_TRUTH_VALUES; CF_METADATA].
  pose proof (fun d => create_column_families_length d options
    [CF_NODES; CF_LINKS; CF_INCOMING; CF_OUTGOING;
     CF_ATTENTION; CF_TRUTH_VALUES; CF_METADATA]) as Hlen.
  destruct (rocksdb_open_column_families env options (c_string path) cf_names
              (repeat rocksdb_options_create 8)) as [[d0 hs0] | e0].
  - repeat split; try (intros; discriminate).
    + intros d hs H. inversion H; subst. reflexivity.
    + intros msg H. destruct malloc_ok; [discriminate H |].
      inversion H; subst. left. split; reflexivity.
    + intros h H. destruct malloc_ok; [| discriminate H].
      inversion H; subst. eexists. repeat split.
  - destruct (rocksdb_open env options (c_string path)) as [d1 | e1].
    + specialize (Hlen d1).
      destruct (create_column_families d1 options
                  [CF_NODES; CF_LINKS; CF_INCOMING; CF_OUTGOING;
                   CF_ATTENTION; CF_TRUTH_VALUES; CF_METADATA]) as [d2 hs2] eqn:Hc.
      simpl in Hlen.
      repeat split; try (intros; discriminate).
      * inversion H0; subst. rewrite Hc. exact Hlen.
      * inversion H0; subst. rewrite Hc. reflexivity.
      * intros msg H. destruct malloc_ok; [discriminate H |].
        inversion H; subst. left. split; reflexivity.
      * intros h H. destruct malloc_ok; [| discriminate H].
        inversion H; subst. eexists. repeat split. simpl. rewrite Hlen. reflexivity.
    + repeat split; try (intros; discriminate).
      * intros e e' _ H. inversion H; subst. reflexivity.
      * intros msg H. inversion H; subst. right. exists e0, e1. repeat split.
Qed.

End Opening.

(** ** Facts that use the engine's documented behaviour *)

Lemma wrap_int_small (z : Z) : INT_MIN <= z <= INT_MAX -> wrap_int z = z.
Proof.
  unfold wrap_int, INT_MIN, INT_MAX. intros H.
  rewrite Z.mod_small by lia. lia.
Qed.

Lemma wrap_int_succ (z : Z) : wrap_int (wrap_int z + 1) = wrap_int (z + 1).
Proof.
  unfold wrap_int.
  replace ((z - INT_MIN) mod 2 ^ 32 + INT_MIN + 1 - INT_MIN)
    with ((z - INT_MIN) mod 2 ^ 32 + 1) by lia.
  rewrite Zplus_mod_idemp_l.
  replace (z - INT_MIN + 1) with (z + 1 - INT_MIN) by lia.
  reflexivity.
Qed.

Section Contract.

Context {E : Engine} {V : EngineViews E} {O : EngineOk E V}.

Lemma counted_step (w : rocksdb_batch_wrapper) (wb : writebatch_t) (c : batch_call) :
  counted w wb ->
  exists w' wb',
    run_call (Some w) c = (Some w', Ok tt) /\
    counted w' wb' /\
    pending wb' = pending_after (pending wb) [c].
Proof.
  intros [Hb Hn]. destruct c as [key val | key |]; simpl;
    unfold caml_rocksdb_batch_put, caml_rocksdb_batch_delete, caml_rocksdb_batch_clear;
    rewrite Hb; eexists; eexists; (split; [reflexivity |]); unfold counted; simpl.
  - rewrite pending_put, Hn, wrap_int_succ, length_app. simpl.
    repeat split. f_equal. lia.
  - rewrite pending_delete, Hn, wrap_int_succ, length_app. simpl.
    repeat split. f_equal. lia.
  - rewrite pending_clear. repeat split.
Qed.

Lemma counted_run (cs : list batch_call) :
  forall (w : rocksdb_batch_wrapper) (wb : writebatch_t),
    counted w wb ->
    exists w' wb',
      run_calls (Some w) cs = Some w' /\
      counted w' wb' /\
      pending wb' = pending_after (pending wb) cs.
Proof.
  induction cs as [| c rest IH]; intros w wb Hc.
  - exists w, wb. repeat split; apply Hc.
  - destruct (counted_step w wb c Hc) as [w1 [wb1 [Hrun [Hc1 Hp1]]]].
    destruct (IH w1 wb1 Hc1) as [w2 [wb2 [Hrun2 [Hc2 Hp2]]]].
    exists w2, wb2. repeat split; try apply Hc2.
    + unfold run_calls in *. simpl. rewrite Hrun. exact Hrun2.
    + rewrite Hp2, Hp1. destruct c; reflexivity.
Qed.

(** C8.  A new batch has count 0.  A put or a delete on a live batch
    succeeds and raises the count by exactly one (the counter is a C
    [int], so this needs it below [INT_MAX]); a clear leaves the batch
    in place, empty, with count 0.  Hence after any sequence of these
    calls on a new batch the engine's batch holds exactly the puts and
    deletes made since the last clear, and count returns their number
    whenever that number fits a C [int]. *)
Theorem count_is_pending_operations (cs : list batch_call) :
  (caml_rocksdb_batch_create true = Ok fresh_batch /\
   caml_rocksdb_batch_count fresh_batch = Ok 0) /\
  (forall w wb key val,
     batch w = Some wb -> INT_MIN <= n_ops w < INT_MAX ->
     (snd (caml_rocksdb_batch_put (Some w) key val) = Ok tt /\
      caml_rocksdb_batch_count (fst (caml_rocksdb_batch_put (Some w) key val)) =
        Ok (n_ops w + 1)) /\
     (snd (caml_rocksdb_batch_delete (Some w) key) = Ok tt /\
      caml_rocksdb_batch_count (fst (caml_rocksdb_batch_delete (Some w) key)) =
        Ok (n_ops w + 1))) /\
  (forall w wb,
     batch w = Some wb ->
     caml_rocksdb_batch_clear (Some w) =
       (Some {| batch := Some (rocksdb_writebatch_clear wb); n_ops := 0 |}, Ok tt) /\
     pending (rocksdb_writebatch_clear wb) = [] /\
     caml_rocksdb_batch_count (fst (caml_rocksdb_batch_clear (Some w))) = Ok 0) /\
  (exists w wb,
     run_calls fresh_batch cs = Some w /\
     batch w = Some wb /\
     pending wb = pending_after [] cs /\
     (Z.of_nat (List.length (pending_after [] cs)) <= INT_MAX ->
      caml_rocksdb_batch_count (run_calls fresh_batch cs) =
        Ok (Z.of_nat (List.length (pending_after [] cs))))).
Proof.
  split; [split; reflexivity |].
  split.
  { intros w wb key val Hb Hn.
    unfold caml_rocksdb_batch_put, caml_rocksdb_batch_delete. rewrite Hb. simpl.
    rewrite wrap_int_small by (unfold INT_MIN, INT_MAX in *; lia).
    repeat split. }
  split.
  { intros w wb Hb. unfold caml_rocksdb_batch_clear. rewrite Hb. simpl.
    rewrite pending_clear. repeat split. }
  assert (H0 : counted {| batch := Some rocksdb_writebatch_create; n_ops := 0 |}
                 rocksdb_writebatch_create).
  { unfold counted. simpl. rewrite pending_create. split; reflexivity. }
  destruct (counted_run cs _ _ H0) as [w [wb [Hrun [[Hb Hn] Hp]]]].
  rewrite pending_create in Hp.
  exists w, wb. unfold fresh_batch. rewrite Hrun. repeat split; try assumption.
  intros Hfit. simpl. rewrite Hn, Hp. f_equal.
  apply wrap_int_small. unfold INT_MIN. lia.
Qed.

(** C2.  On an open database [batch_write] is all or nothing: when it
    returns, every pending operation of the batch is committed to the
    default namespace, in the order it was added; when it raises, the
    database is exactly as before the call. *)
Theorem batch_write_all_or_nothing (w : rocksdb_wrapper) (b : batch_val) :
  is_open w <> 0 ->
  (snd (caml_rocksdb_batch_write (Some w) b) = Ok tt ->
   exists bw wb w',
     b = Some bw /\ batch bw = Some wb /\
     fst (caml_rocksdb_batch_write (Some w) b) = Some w' /\
     forall k, committed (db w') None k = apply_ops (pending wb) (committed (db w) None) k) /\
  (forall msg, snd (caml_rocksdb_batch_write (Some w) b) = Failure msg ->
     fst (caml_rocksdb_batch_write (Some w) b) = Some w).
Proof.
  intros Hopen. apply not_open_false in Hopen.
  unfold caml_rocksdb_batch_write. rewrite Hopen.
  destruct b as [bw |]; [| split; [intros H; discriminate H | reflexivity]].
  destruct (batch bw) as [wb |] eqn:Hb; [| split; [intros H; discriminate H | reflexivity]].
  destruct (rocksdb_write (db w) (write_options w) wb) as [d' [e |]] eqn:Hw; simpl.
  - split; [intros H; discriminate H |].
    intros msg _. apply write_failed in Hw. subst d'. rewrite with_db_same. reflexivity.
  - split; [| intros msg H; discriminate H].
    intros _. exists bw, wb, (with_db w d'). repeat split; try assumption.
    intros k. simpl. eapply write_committed. exact Hw.
Qed.

(** No read takes a snapshot: [get] and [iter_create] use the read
    options of the database, which [open] creates fresh and no stub
    changes.  So after a put of [V2] under [K] every read of [K] that
    returns yields [V2], and a new iterator is built on the store as it
    is then, with read options that carry no snapshot. *)
Lemma reads_take_no_snapshot (w : rocksdb_wrapper) (cf_idx : Z) (K V2 : string)
  (d' : db_val) :
  is_open w <> 0 ->
  read_options w = rocksdb_readoptions_create ->
  caml_rocksdb_put (Some w) cf_idx K V2 = (d', Ok tt) ->
  exists w',
    d' = Some w' /\
    read_options w' = rocksdb_readoptions_create /\
    (forall r, caml_rocksdb_get d' cf_idx K = Ok r -> r = Some V2) /\
    caml_rocksdb_iter_create d' true cf_idx =
      Ok (Some {| iter := Some
                    match cf_handle_for w' (Int_val cf_idx) with
                    | Some h => rocksdb_create_iterator_cf (db w') rocksdb_readoptions_create h
                    | None => rocksdb_create_iterator (db w') rocksdb_readoptions_create
                    end;
                  cf_index := Int_val cf_idx |}).
Proof.
  intros Hopen Hro Hput. apply not_open_false in Hopen.
  unfold caml_rocksdb_put in Hput. rewrite Hopen in Hput.
  destruct (cf_handle_for w (Int_val cf_idx)) as [h |] eqn:Hcf.
  - destruct (rocksdb_put_cf (db w) (write_options w) h K V2) as [dn [e |]] eqn:Hp;
      inversion Hput; subst d'.
    exists (with_db w dn). repeat split.
    + exact Hro.
    + intros r. unfold caml_rocksdb_get. simpl. rewrite Hopen.
      change (cf_handle_for (with_db w dn) (Int_val cf_idx))
        with (cf_handle_for w (Int_val cf_idx)).
      rewrite Hcf, Hro.
      destruct (rocksdb_get_cf dn rocksdb_readoptions_create h K) as [v [e |]] eqn:Hg;
        intros H; inversion H; subst r.
      apply get_cf_committed in Hg. rewrite Hg.
      eapply put_cf_committed. exact Hp.
    + unfold caml_rocksdb_iter_create. simpl. rewrite Hopen, Hro. reflexivity.
  - destruct (rocksdb_put (db w) (write_options w) K V2) as [dn [e |]] eqn:Hp;
      inversion Hput; subst d'.
    exists (with_db w dn). repeat split.
    + exact Hro.
    + intros r. unfold caml_rocksdb_get. simpl. rewrite Hopen.
      change (cf_handle_for (with_db w dn) (Int_val cf_idx))
        with (cf_handle_for w (Int_val cf_idx)).
      rewrite Hcf, Hro.
      destruct (rocksdb_get dn rocksdb_readoptions_create K) as [v [e |]] eqn:Hg;
        intros H; inversion H; subst r.
      apply get_committed in Hg. rewrite Hg.
      eapply put_committed. exact Hp.
    + unfold caml_rocksdb_iter_create. simpl. rewrite Hopen, Hro. reflexivity.
Qed.

End Contract.

(** ** The in-memory engine behaves as documented *)

Lemma apply_ops_ext (ops : list batch_op) :
  forall m1 m2 : string -> option string,
    (forall k, m1 k = m2 k) -> forall k, apply_ops ops m1 k = apply_ops ops m2 k.
Proof.
  unfold apply_ops. induction ops as [| op rest IH]; intros m1 m2 H k; simpl.
  - apply H.
  - apply IH. intros k'. unfold apply_op. destruct op; rewrite H; reflexivity.
Qed.

Lemma store_get_remove_same (st : Ref.store) (k : string) :
  Ref.store_get (Ref.store_remove st k) k = None.
Proof.
  unfold Ref.store_get, Ref.store_remove.
  induction st as [| e rest IH]; simpl.
  - reflexivity.
  - destruct (String.eqb (fst e) k) eqn:He; simpl.
    + exact IH.
    + rewrite He. exact IH.
Qed.

Lemma store_get_remove_other (st : Ref.store) (k k' : string) :
  k' <> k -> Ref.store_get (Ref.store_remove st k) k' = Ref.store_get st k'.
Proof.
  intros Hne. unfold Ref.store_get, Ref.store_remove.
  induction st as [| e rest IH]; simpl.
  - reflexivity.
  - destruct (String.eqb (fst e) k) eqn:He; simpl.
    + apply String.eqb_eq in He.
      replace (String.eqb (fst e) k') with false.
      * exact IH.
      * symmetry. apply String.eqb_neq. congruence.
    + destruct (String.eqb (fst e) k'); [reflexivity | exact IH].
Qed.

Lemma store_get_apply (st : Ref.store) (op : batch_op) (k : string) :
  Ref.store_get (Ref.store_apply st op) k = apply_op (Ref.store_get st) op k.
Proof.
  destruct op as [key val | key]; unfold apply_op; simpl.
  - destruct (String.eqb k key) eqn:Hk.
    + apply String.eqb_eq in Hk. subst key.
      unfold Ref.store_put, Ref.store_get. simpl. rewrite String.eqb_refl. reflexivity.
    + unfold Ref.store_put. unfold Ref.store_get at 1. simpl.
      rewrite String.eqb_sym, Hk.
      apply String.eqb_neq in Hk.
      apply (store_get_remove_other st key k Hk).
  - destruct (String.eqb k key) eqn:Hk.
    + apply String.eqb_eq in Hk. subst key. apply store_get_remove_same.
    + apply String.eqb_neq in Hk. apply store_get_remove_other. exact Hk.
Qed.

Lemma store_get_fold (ops : list batch_op) :
  forall (st : Ref.store) (k : string),
    Ref.store_get (fold_left Ref.store_apply ops st) k =
    apply_ops ops (Ref.store_get st) k.
Proof.
  induction ops as [| op rest IH]; intros st k; simpl.
  - reflexivity.
  - rewrite IH. unfold apply_ops. simpl.
    apply apply_ops_ext. intros k'. apply store_get_apply.
Qed.

Lemma find_cf_update_cf (name : string) (f : Ref.store -> Ref.store) (c : Ref.families) :
  Ref.find_cf name (Ref.update_cf name f c) = option_map f (Ref.find_cf name c).
Proof.
  unfold Ref.find_cf, Ref.update_cf.
  induction c as [| x rest IH]; simpl.
  - reflexivity.
  - destruct (String.eqb (fst x) name) eqn:Hx; simpl; rewrite Hx.
    + reflexivity.
    + exact IH.
Qed.

Lemma update_done (d d' : Ref.t) (name : string) (f : Ref.store -> Ref.store) :
  Ref.update d name f = (d', None) ->
  exists st, Ref.find_cf name (Ref.cfs d) = Some st /\
             Ref.find_cf name (Ref.cfs d') = Some (f st).
Proof.
  unfold Ref.update. destruct (Ref.fault d); [intros H; discriminate H |].
  destruct (Ref.find_cf name (Ref.cfs d)) as [st |] eqn:Hf; intros H; inversion H.
  exists st. split; [reflexivity |].
  simpl. rewrite find_cf_update_cf, Hf. reflexivity.
Qed.

Lemma update_failed (d d' : Ref.t) (name e : string) (f : Ref.store -> Ref.store) :
  Ref.update d name f = (d', Some e) -> d' = d.
Proof.
  unfold Ref.update. destruct (Ref.fault d); [intros H; inversion H; reflexivity |].
  destruct (Ref.find_cf name (Ref.cfs d)); intros H; inversion H; reflexivity.
Qed.

Lemma lookup_done (d : Ref.t) (name k : string) (v : option string) :
  Ref.lookup d None name k = (v, None) ->
  v = match Ref.find_cf name (Ref.cfs d) with
      | Some st => Ref.store_get st k
      | None => None
      end.
Proof.
  unfold Ref.lookup. destruct (Ref.fault d); [intros H; discriminate H |].
  destruct (Ref.find_cf name (Ref.cfs d)); intros H; inversion H; reflexivity.
Qed.

#[export] Instance RefOk : EngineOk RefEngine RefViews.
Proof.
  constructor; simpl.
  - intros d k v H. apply lookup_done. exact H.
  - intros d h k v H. apply lookup_done. exact H.
  - intros d _ k v d' H. apply update_done in H. destruct H as [st [_ H]].
    rewrite H. unfold Ref.store_put, Ref.store_get. simpl.
    rewrite String.eqb_refl. reflexivity.
  - intros d _ h k v d' H. apply update_done in H. destruct H as [st [_ H]].
    rewrite H. unfold Ref.store_put, Ref.store_get. simpl.
    rewrite String.eqb_refl. reflexivity.
  - reflexivity.
  - reflexivity.
  - reflexivity.
  - reflexivity.
  - intros d _ b d' H k. unfold Ref.write in H. apply update_done in H.
    destruct H as [st [H0 H1]]. rewrite H1, store_get_fold.
    apply apply_ops_ext. intros k'. rewrite H0. reflexivity.
  - intros d _ b d' e H. unfold Ref.write in H. eapply update_failed. exact H.
Qed.

(** ** The stubs on the in-memory engine *)

Lemma sample_is_open : is_open Sample.wrapper <> 0.
Proof. discriminate. Qed.

Example iteration_in_key_order :
  match caml_rocksdb_iter_create Sample.with_bac true 0 with
  | Ok i => Sample.keys_from i =
            [Defined (Ok "a"); Defined (Ok "b"); Defined (Ok "c")]
  | Failure _ => False
  end.
Proof. reflexivity. Qed.

Example put_get_delete_round_trip :
  caml_rocksdb_get (fst (caml_rocksdb_put (Some Sample.wrapper) 3 "k" EmptyString)) 3 "k" =
    Ok (Some EmptyString) /\
  caml_rocksdb_get
    (fst (caml_rocksdb_delete (fst (caml_rocksdb_put (Some Sample.wrapper) 3 "k" "v")) 3 "k"))
    3 "k" = Ok None /\
  snd (caml_rocksdb_delete (Some Sample.wrapper) 3 "absent") = Ok tt.
Proof. repeat split. Qed.

(** The snapshot the engine handed out keeps [V1]: a lookup with it in
    the read options, a call no stub makes, returns [V1] after the
    overwrite. *)
Example engine_snapshot_keeps_v1 :
  match Sample.held_snapshot, Sample.after_v2 with
  | Some s, Some w =>
      match snapshot s with
      | Some snap =>
          rocksdb_get_cf (db w)
            (rocksdb_readoptions_set_snapshot rocksdb_readoptions_create snap)
            CF_NODES "K" = (Some "V1", None)
      | None => False
      end
  | _, _ => False
  end.
Proof. reflexivity. Qed.

Lemma not_open_is_surfaced_witness :
  not_open Sample.closed = true /\
  caml_rocksdb_put Sample.closed 1 "K" "V" =
    (Sample.closed, Failure "rocksdb_put: database not open") /\
  caml_rocksdb_batch_write Sample.closed Sample.batch_ab =
    (Sample.closed, Failure "rocksdb_batch_write: database not open") /\
  caml_rocksdb_get_property Sample.closed "rocksdb.stats" =
    Failure "rocksdb_get_property: database not open" /\
  caml_rocksdb_flush Sample.closed =
    (Sample.closed, Failure "rocksdb_flush: database not open").
Proof.
  pose proof (not_open_is_surfaced Sample.closed 1 "K" "V" "rocksdb.stats"
                Sample.batch_ab true (close_not_open (Some Sample.wrapper))) as H.
  split; [apply close_not_open |].
  repeat split; apply H.
Defined.

Lemma namespace_of_index_witness :
  (out_of_range Sample.wrapper (Int_val 9) /\
   caml_rocksdb_put (Some Sample.wrapper) 9 "K" "V" =
     surfaced "rocksdb_put" Sample.wrapper (rocksdb_put (db Sample.wrapper) tt "K" "V")) /\
  (names_handle Sample.wrapper (Int_val 2) "links" /\
   caml_rocksdb_put (Some Sample.wrapper) 2 "K" "V" =
     surfaced "rocksdb_put" Sample.wrapper
       (rocksdb_put_cf (db Sample.wrapper) tt "links" "K" "V")) /\
  (names_handle Sample.wrapper (Int_val 4294967298) "links" /\
   caml_rocksdb_put (Some Sample.wrapper) 4294967298 "K" "V" =
     surfaced "rocksdb_put" Sample.wrapper
       (rocksdb_put_cf (db Sample.wrapper) tt "links" "K" "V")).
Proof.
  assert (H9 : out_of_range Sample.wrapper (Int_val 9))
    by (right; left; vm_compute; discriminate).
  assert (H2 : names_handle Sample.wrapper (Int_val 2) "links")
    by (split; [split; reflexivity | reflexivity]).
  assert (Hw : names_handle Sample.wrapper (Int_val 4294967298) "links")
    by (split; [split; reflexivity | reflexivity]).
  split; [| split]; split; try assumption.
  - apply (proj1 (namespace_of_index Sample.wrapper 9 "K" "V" sample_is_open) H9).
  - apply (proj1 (proj2 (namespace_of_index Sample.wrapper 2 "K" "V" sample_is_open))
             "links" H2).
  - apply (proj1 (proj2 (namespace_of_index Sample.wrapper 4294967298 "K" "V"
                           sample_is_open))
             "links" Hw).
Defined.

Lemma exists_downgrades_errors_witness :
  (engine_lookup (Sample.failing Sample.wrapper) 1 "K" =
     (None, Some "IO error: No space left on device") /\
   caml_rocksdb_exists (Some (Sample.failing Sample.wrapper)) 1 "K" = Ok false /\
   caml_rocksdb_get (Some (Sample.failing Sample.wrapper)) 1 "K" =
     Failure "rocksdb_get failed: IO error: No space left on device") /\
  (caml_rocksdb_get Sample.after_v2 1 "K" = Ok (Some "V2") /\
   caml_rocksdb_exists Sample.after_v2 1 "K" = Ok true).
Proof.
  split.
  - split; [reflexivity |].
    apply (proj1 (proj2 (exists_downgrades_errors
                           (Sample.failing Sample.wrapper) 1 "K" sample_is_open))
             None "IO error: No space left on device" eq_refl).
  - split; [reflexivity |].
    apply (proj2 (proj2 (proj2 (exists_downgrades_errors
                                  (with_db Sample.wrapper
                                     (fst (rocksdb_put_cf
                                             (fst (rocksdb_put_cf (db Sample.wrapper) tt
                                                     "nodes" "K" "V1"))
                                             tt "nodes" "K" "V2")))
                                  1 "K" sample_is_open)))).
    exists "V2". reflexivity.
Defined.

Lemma destroy_again_returns_unit_witness :
  caml_rocksdb_batch_destroy Sample.destroyed_batch = (None, Ok tt) /\
  caml_rocksdb_snapshot_release Sample.held_snapshot = (None, Ok tt) /\
  caml_rocksdb_snapshot_release (fst (caml_rocksdb_snapshot_release Sample.held_snapshot)) =
    (None, Ok tt).
Proof.
  pose proof (destroy_again_returns_unit Sample.batch_ab Sample.cursor0
                Sample.held_snapshot) as [[_ Hb] [_ [_ [Hs2 Hs]]]].
  split; [exact Hb |]. split.
  - apply (Hs _ _ _ eq_refl eq_refl eq_refl).
  - exact Hs2.
Defined.

Lemma destroyed_batch_calls_witness :
  caml_rocksdb_batch_count Sample.destroyed_batch = Ok 0 /\
  caml_rocksdb_batch_put Sample.destroyed_batch "a" "1" =
    (None, Failure "rocksdb_batch_put: invalid batch") /\
  caml_rocksdb_batch_write (Some Sample.wrapper) Sample.destroyed_batch =
    (Some Sample.wrapper, Failure "rocksdb_batch_write: invalid batch") /\
  caml_rocksdb_batch_write Sample.closed Sample.destroyed_batch =
    (None, Failure "rocksdb_batch_write: database not open").
Proof.
  pose proof (destroyed_batch_calls Sample.batch_ab (Some Sample.wrapper) "a" "1")
    as [Hc [_ [Hp [_ [_ [Hw _]]]]]].
  pose proof (destroyed_batch_calls Sample.batch_ab Sample.closed "a" "1")
    as [_ [_ [_ [_ [_ [_ Hn]]]]]].
  split; [exact Hc |]. split; [exact Hp |]. split.
  - apply Hw. reflexivity.
  - apply Hn. reflexivity.
Defined.

Lemma open_routes_witness :
  (first_attempt Sample.fallback_env (open_options true 0) "/var/lib/atomspace" =
     Err "Invalid argument: Column families not opened" /\
   exists w,
     caml_rocksdb_open Sample.fallback_env true "/var/lib/atomspace" true 0 = Ok (Some w) /\
     cf_handles w =
       [None; Some CF_NODES; Some CF_LINKS; Some CF_INCOMING; Some CF_OUTGOING;
        Some CF_ATTENTION; Some CF_TRUTH_VALUES; Some CF_METADATA]) /\
  caml_rocksdb_open Sample.fresh_env true "/var/lib/atomspace" true 0 =
    Ok (Some Sample.wrapper) /\
  caml_rocksdb_open Sample.fallback_env true "/var/lib/atomspace" false 0 =
    Failure "rocksdb_open failed: Invalid argument: /var/lib/atomspace: does not exist (create_if_missing is false)".
Proof.
  split; [split; [reflexivity |] | split].
  - destruct (open_routes (E := RefEngine) Sample.fallback_env true "/var/lib/atomspace" true 0)
      as [_ [H _]].
    specialize (H _ _ eq_refl eq_refl). destruct H as [_ H].
    eexists. split; [exact H | reflexivity].
  - destruct (open_routes (E := RefEngine) Sample.fresh_env true "/var/lib/atomspace" true 0)
      as [H _].
    apply (H _ _ eq_refl).
  - destruct (open_routes (E := RefEngine) Sample.fallback_env true "/var/lib/atomspace" false 0)
      as [_ [_ [H _]]].
    apply (H _ _ eq_refl eq_refl).
Defined.

Lemma count_is_pending_operations_witness :
  caml_rocksdb_batch_count Sample.batch_ab = Ok 3 /\
  caml_rocksdb_batch_count (fst (caml_rocksdb_batch_put Sample.batch_ab "c" "3")) = Ok 4 /\
  caml_rocksdb_batch_count (fst (caml_rocksdb_batch_clear Sample.batch_ab)) = Ok 0.
Proof.
  destruct (count_is_pending_operations (E := RefEngine)
              [CallPut "a" "1"; CallDelete "z"; CallPut "b" "2"])
    as [_ [Hstep [Hclear [w [wb [_ [_ [_ Hcount]]]]]]]].
  split; [| split].
  - apply Hcount. simpl. unfold INT_MAX. lia.
  - apply (Hstep (@Build_rocksdb_batch_wrapper RefEngine (Some [BPut "a" "1"; BDelete "z"; BPut "b" "2"]) 3)
             _ "c" "3" eq_refl).
    simpl. unfold INT_MIN, INT_MAX. lia.
  - apply (Hclear (@Build_rocksdb_batch_wrapper RefEngine (Some [BPut "a" "1"; BDelete "z"; BPut "b" "2"]) 3)
             _ eq_refl).
Defined.

Lemma batch_write_all_or_nothing_witness :
  (snd (caml_rocksdb_batch_write (Some Sample.wrapper) Sample.batch_ab) = Ok tt /\
   caml_rocksdb_get (fst (caml_rocksdb_batch_write (Some Sample.wrapper) Sample.batch_ab))
     0 "a" = Ok (Some "1") /\
   caml_rocksdb_get (fst (caml_rocksdb_batch_write (Some Sample.wrapper) Sample.batch_ab))
     0 "b" = Ok (Some "2")) /\
  (snd (caml_rocksdb_batch_write (Some (Sample.failing Sample.wrapper)) Sample.batch_ab) =
     Failure "rocksdb_batch_write failed: IO error: No space left on device" /\
   fst (caml_rocksdb_batch_write (Some (Sample.failing Sample.wrapper)) Sample.batch_ab) =
     Some (Sample.failing Sample.wrapper)).
Proof.
  split.
  - destruct (proj1 (batch_write_all_or_nothing Sample.wrapper Sample.batch_ab
                       sample_is_open) eq_refl)
      as [bw [wb [w' [_ [_ [_ _]]]]]].
    repeat split.
  - split; [reflexivity |].
    apply (proj2 (batch_write_all_or_nothing (Sample.failing Sample.wrapper)
                    Sample.batch_ab sample_is_open)
             "rocksdb_batch_write failed: IO error: No space left on device").
    reflexivity.
Defined.

Lemma reads_take_no_snapshot_witness :
  caml_rocksdb_put Sample.after_v1 1 "K" "V2" = (Sample.after_v2, Ok tt) /\
  caml_rocksdb_get Sample.after_v2 1 "K" = Ok (Some "V2").
Proof.
  split; [reflexivity |].
  destruct (reads_take_no_snapshot
              (with_db Sample.wrapper
                 (fst (rocksdb_put_cf (db Sample.wrapper) tt "nodes" "K" "V1")))
              1 "K" "V2" Sample.after_v2
              sample_is_open eq_refl eq_refl)
    as [w' [_ [_ [Hget _]]]].
  exact (f_equal Ok (eq_sym (Hget (Some "V2") eq_refl))).
Defined.

(** C1.  With [V1] under [K] a snapshot is created, then [K] is
    overwritten with [V2].  The snapshot the handle holds still has
    [V1]: the engine's lookup with it in the read options returns [V1].
    No stub makes that call.  Every read the stubs offer ([get],
    [exists], a new cursor) uses the read options of the database, and
    after the overwrite each of them shows [V2]: the read through the
    snapshot that the claim describes, and the header of the file
    announces, is missing. *)
Lemma get_ignores_held_snapshot :
  caml_rocksdb_get Sample.after_v1 1 "K" = Ok (Some "V1") /\
  caml_rocksdb_snapshot_create Sample.after_v1 true = Ok Sample.held_snapshot /\
  caml_rocksdb_put Sample.after_v1 1 "K" "V2" = (Sample.after_v2, Ok tt) /\
  match Sample.held_snapshot, Sample.after_v2 with
  | Some s, Some w =>
      match snapshot s with
      | Some snap =>
          rocksdb_get_cf (db w)
            (rocksdb_readoptions_set_snapshot rocksdb_readoptions_create snap)
            CF_NODES "K" = (Some "V1", None) /\
          read_options w = rocksdb_readoptions_create
      | None => False
      end
  | _, _ => False
  end /\
  caml_rocksdb_get Sample.after_v2 1 "K" = Ok (Some "V2") /\
  caml_rocksdb_exists Sample.after_v2 1 "K" = Ok true /\
  caml_rocksdb_iter_value Sample.cursor_after_v2 = Defined (Ok "V2").
Proof.
  repeat split.
Qed.

(** C3.  A cursor stepped past the last entry is live and not valid:
    [valid] answers false.  The claim has [key] and [value] fail there
    with an error.  The stubs raise for a destroyed handle only; on
    this cursor neither raises: each calls the engine's accessor, which
    the C API allows on a valid iterator only. *)
Lemma iter_key_unchecked_when_not_valid :
  caml_rocksdb_iter_valid Sample.exhausted = Ok false /\
  caml_rocksdb_iter_key Sample.exhausted = Undefined /\
  caml_rocksdb_iter_value Sample.exhausted = Undefined /\
  (forall msg, caml_rocksdb_iter_key Sample.exhausted <> Defined (Failure msg)) /\
  (forall msg, caml_rocksdb_iter_value Sample.exhausted <> Defined (Failure msg)) /\
  caml_rocksdb_iter_key (fst (caml_rocksdb_iter_destroy Sample.exhausted)) =
    Defined (Failure "rocksdb_iter_key: invalid iterator") /\
  caml_rocksdb_iter_value (fst (caml_rocksdb_iter_destroy Sample.exhausted)) =
    Defined (Failure "rocksdb_iter_value: invalid iterator").
Proof.
  repeat split; intros msg H; discriminate H.
Qed.

(** C7, as stated: an index at or beyond the registered count should
    reach the default namespace.  The index 4294967298 is beyond the
    count of 8, yet the stub decodes it to the C [int] 2: the put lands
    in the namespace of slot 2 and the default namespace stays empty. *)
Lemma wide_index_reaches_a_namespace :
  n_cf Sample.wrapper <= 4294967298 /\
  Int_val 4294967298 = 2 /\
  caml_rocksdb_put (Some Sample.wrapper) 4294967298 "K" "V" =
    caml_rocksdb_put (Some Sample.wrapper) 2 "K" "V" /\
  caml_rocksdb_put (Some Sample.wrapper) 4294967298 "K" "V" <>
    caml_rocksdb_put (Some Sample.wrapper) 0 "K" "V" /\
  caml_rocksdb_put (Some Sample.wrapper) 4294967298 "K" "V" <>
    surfaced "rocksdb_put" Sample.wrapper (rocksdb_put (db Sample.wrapper) tt "K" "V") /\
  caml_rocksdb_get (fst (caml_rocksdb_put (Some Sample.wrapper) 4294967298 "K" "V")) 2 "K" =
    Ok (Some "V") /\
  caml_rocksdb_get (fst (caml_rocksdb_put (Some Sample.wrapper) 4294967298 "K" "V")) 0 "K" =
    Ok None.
Proof.
  repeat split; try discriminate.
Qed.

(** C4, as stated: the second route should create all eight registry
    entries.  It creates the seven after the default one; the registry
    of the returned handle has no handle for the default namespace. *)
Lemma fallback_creates_seven_namespaces :
  first_attempt Sample.fallback_env (open_options true 0) "/var/lib/atomspace" =
    Err "Invalid argument: Column families not opened" /\
  List.length
    (snd (create_column_families
            {| Ref.cfs := [(CF_DEFAULT, [])]; Ref.fault := None |}
            (open_options true 0) (skipn 1 cf_names))) = 7%nat /\
  List.length cf_names = 8%nat /\
  exists w,
    caml_rocksdb_open Sample.fallback_env true "/var/lib/atomspace" true 0 = Ok (Some w) /\
    cf_handles w =
      [None; Some "nodes"; Some "links"; Some "incoming"; Some "outgoing";
       Some "attention"; Some "truth_values"; Some "metadata"].
Proof.
  repeat split. eexists. split; reflexivity.
Qed.

(** C9, as stated: a second destroy or release should be reported as a
    failure.  Each of the three returns unit. *)
Lemma second_destroy_does_not_raise :
  raised (snd (caml_rocksdb_batch_destroy Sample.destroyed_batch)) = false /\
  raised (snd (caml_rocksdb_iter_destroy
                 (fst (caml_rocksdb_iter_destroy Sample.cursor0)))) = false /\
  raised (snd (caml_rocksdb_snapshot_release
                 (fst (caml_rocksdb_snapshot_release Sample.held_snapshot)))) = false.
Proof. repeat split. Qed.

(** C10, as stated: count should be the only batch operation that
    tolerates a destroyed handle, and write should raise "invalid
    batch".  Destroy tolerates it too, and against a closed database
    write raises "database not open". *)
Lemma destroy_tolerates_destroyed_batch :
  Sample.destroyed_batch = None /\
  caml_rocksdb_batch_destroy Sample.destroyed_batch = (None, Ok tt) /\
  caml_rocksdb_batch_write Sample.closed Sample.destroyed_batch =
    (None, Failure "rocksdb_batch_write: database not open").
Proof. repeat split. Qed.

(** * Further properties of the stubs *)

(** ** The text of a raised engine error *)

Lemma substring_length_le (n : nat) (s : string) :
  (String.length (substring 0 n s) <= n)%nat.
Proof.
  revert s. induction n as [| n IH]; intros [| c s]; simpl; try lia.
  specialize (IH s). lia.
Qed.

Lemma substring_whole (n : nat) (s : string) :
  (String.length s <= n)%nat -> substring 0 n s = s.
Proof.
  revert s. induction n as [| n IH]; intros [| c s]; simpl; intros H;
    try reflexivity; try lia.
  rewrite IH by lia. reflexivity.
Qed.

Lemma substring_keeps_prefix (p s : string) :
  forall n : nat, (String.length p <= n)%nat ->
    String.prefix p (substring 0 n (p ++ s)) = true.
Proof.
  induction p as [| a p IH]; intros n H; simpl.
  - destruct (substring 0 n s); reflexivity.
  - destruct n as [| n]; simpl in *; [lia |].
    destruct (Ascii.ascii_dec a a) as [_ | Hne]; [| contradiction].
    apply IH. lia.
Qed.

Lemma snprintf256_cut (p err : string) :
  (String.length p <= 255)%nat ->
  String.prefix p (snprintf256 p err) = true /\
  (String.length (snprintf256 p err) <= 255)%nat.
Proof.
  intros H. unfold snprintf256. split.
  - apply substring_keeps_prefix. exact H.
  - apply substring_length_le.
Qed.

Lemma snprintf256_short (p err : string) :
  (String.length (p ++ err) <= 255)%nat -> snprintf256 p err = (p ++ err)%string.
Proof. intros H. unfold snprintf256. apply substring_whole. exact H. Qed.

(** ** Strings read as C strings *)

Lemma c_string_whole (s : string) :
  (forall c, In c (list_ascii_of_string s) -> c <> Ascii.zero) -> c_string s = s.
Proof.
  induction s as [| a s IH]; simpl; intros H.
  - reflexivity.
  - destruct (Ascii.eqb a Ascii.zero) eqn:Ha.
    + apply Ascii.eqb_eq in Ha. exfalso. apply (H a); [left; reflexivity | exact Ha].
    + rewrite IH; [reflexivity |]. intros c Hc. apply H. right. exact Hc.
Qed.

Lemma c_string_app_nul (a b : string) :
  c_string (a ++ String Ascii.zero b) = c_string a.
Proof.
  induction a as [| c a IH]; simpl.
  - reflexivity.
  - destruct (Ascii.eqb c Ascii.zero); [reflexivity |]. rewrite IH. reflexivity.
Qed.

Section MoreStubProperties.

Context {E : Engine}.

(** X1.  [close] never raises and leaves a handle that is not open;
    closing again changes nothing.  An open handle reports [true] to
    [is_open] and [close] stores NULL in it. *)
Theorem close_once_or_twice (d : db_val) :
  snd (caml_rocksdb_close d) = Ok tt /\
  caml_rocksdb_is_open (fst (caml_rocksdb_close d)) = Ok false /\
  caml_rocksdb_close (fst (caml_rocksdb_close d)) = (fst (caml_rocksdb_close d), Ok tt) /\
  (forall w, d = Some w -> is_open w <> 0 ->
     caml_rocksdb_is_open d = Ok true /\ caml_rocksdb_close d = (None, Ok tt)).
Proof.
  unfold caml_rocksdb_is_open.
  pose proof (close_not_open d) as Hc.
  repeat split.
  - unfold caml_rocksdb_close. destruct (not_open d); reflexivity.
  - rewrite Hc. reflexivity.
  - unfold caml_rocksdb_close at 1. rewrite Hc. reflexivity.
  - subst d. simpl. rewrite (not_open_false w H0). reflexivity.
  - subst d. unfold caml_rocksdb_close. simpl. rewrite (not_open_false w H0). reflexivity.
Qed.

Lemma run_db_calls_keep_wrapper (w : rocksdb_wrapper) (cs : list db_call) :
  forall d, exists d', run_db_calls (Some (with_db w d)) cs = Some (with_db w d').
Proof.
  induction cs as [| c rest IH]; intros d.
  - exists d. reflexivity.
  - assert (Hstep : exists d1, fst (run_db_call (Some (with_db w d)) c) = Some (with_db w d1)).
    { destruct c as [cf_idx key val | cf_idx key | b | cf_idx |]; simpl.
      - destruct (stubs_keep_wrapper (with_db w d) cf_idx key val None) as [[d1 H] _].
        exists d1. exact H.
      - destruct (stubs_keep_wrapper (with_db w d) cf_idx key key None) as [_ [[d1 H] _]].
        exists d1. exact H.
      - destruct (stubs_keep_wrapper (with_db w d) 0 EmptyString EmptyString b)
          as [_ [_ [[d1 H] _]]].
        exists d1. exact H.
      - destruct (stubs_keep_wrapper (with_db w d) cf_idx EmptyString EmptyString None)
          as [_ [_ [_ [[d1 H] _]]]].
        exists d1. exact H.
      - destruct (stubs_keep_wrapper (with_db w d) 0 EmptyString EmptyString None)
          as [_ [_ [_ [_ [d1 H]]]]].
        exists d1. exact H. }
    destruct Hstep as [d1 H1]. destruct (IH d1) as [d' H'].
    exists d'. unfold run_db_calls in *. simpl. rewrite H1. exact H'.
Qed.

(** X2.  No call but [close] closes a database: after any sequence of
    put, delete, batch_write, compact_range and flush on a handle that
    [open] returned, whatever each call returned or raised, the handle
    still holds the same wrapper with only the state of the store
    changed, and [is_open] answers [true]. *)
Theorem calls_keep_the_database_open (env : env_t) (malloc_ok : bool) (p : string)
  (create_if_missing : bool) (compression : Z) (w : rocksdb_wrapper)
  (cs : list db_call) :
  caml_rocksdb_open env malloc_ok p create_if_missing compression = Ok (Some w) ->
  exists d,
    run_db_calls (Some w) cs = Some (with_db w d) /\
    well_formed (with_db w d) /\
    caml_rocksdb_is_open (run_db_calls (Some w) cs) = Ok true.
Proof.
  intros Hopen. apply open_well_formed in Hopen.
  destruct (run_db_calls_keep_wrapper w cs (db w)) as [d Hd].
  rewrite with_db_same in Hd.
  exists d. rewrite Hd. repeat split; try apply Hopen.
  unfold caml_rocksdb_is_open. simpl.
  destruct Hopen as [Ho _]. rewrite Ho. reflexivity.
Qed.

(** X4.  [iter_create] and [compact_range] decode the index with
    [Int_val] and choose the namespace by the rule of the point
    operations.  With a decoded index out of range the cursor runs over
    the default namespace and still records the decoded index; an
    allocation failure raises after the open check. *)
Theorem iter_create_and_compact_range_by_index (w : rocksdb_wrapper) (cf_index : Z) :
  is_open w <> 0 ->
  (out_of_range w (Int_val cf_index) ->
     caml_rocksdb_iter_create (Some w) true cf_index =
       Ok (Some {| iter := Some (rocksdb_create_iterator (db w) (read_options w));
                   cf_index := Int_val cf_index |}) /\
     caml_rocksdb_compact_range (Some w) cf_index =
       (Some (with_db w (rocksdb_compact_range (db w))), Ok tt)) /\
  (forall h, names_handle w (Int_val cf_index) h ->
     caml_rocksdb_iter_create (Some w) true cf_index =
       Ok (Some {| iter := Some (rocksdb_create_iterator_cf (db w) (read_options w) h);
                   cf_index := Int_val cf_index |}) /\
     caml_rocksdb_compact_range (Some w) cf_index =
       (Some (with_db w (rocksdb_compact_range_cf (db w) h)), Ok tt)) /\
  caml_rocksdb_iter_create (Some w) false cf_index =
    Failure "rocksdb_iter_create: failed to allocate wrapper" /\
  (INT_MIN <= cf_index <= INT_MAX -> Int_val cf_index = cf_index).
Proof.
  intros Hopen. apply not_open_false in Hopen.
  unfold caml_rocksdb_iter_create, caml_rocksdb_compact_range. rewrite Hopen.
  repeat split; try (apply Int_val_in_range; assumption).
  - apply cf_handle_for_out_of_range in H. rewrite H. reflexivity.
  - apply cf_handle_for_out_of_range in H. rewrite H. reflexivity.
  - apply cf_handle_for_names in H. rewrite H. reflexivity.
  - apply cf_handle_for_names in H. rewrite H. reflexivity.
Qed.

(** X5.  On an open database put, get, delete, batch_write and flush
    raise exactly when their engine call reports an error, and the
    message is then the name of the call and "failed: " followed by the
    text the engine reported, cut so that the whole message has at most
    255 characters; a text that fits is kept whole. *)
Theorem engine_errors_are_named_and_cut (w : rocksdb_wrapper) (cf_idx : Z)
  (key val : string) (bw : rocksdb_batch_wrapper) (wb : writebatch_t) :
  is_open w <> 0 ->
  batch bw = Some wb ->
  (forall msg, snd (caml_rocksdb_put (Some w) cf_idx key val) = Failure msg <->
     exists e, snd (engine_put w cf_idx key val) = Some e /\
               msg = snprintf256 "rocksdb_put failed: " e) /\
  (forall msg, caml_rocksdb_get (Some w) cf_idx key = Failure msg <->
     exists e, snd (engine_lookup w cf_idx key) = Some e /\
               msg = snprintf256 "rocksdb_get failed: " e) /\
  (forall msg, snd (caml_rocksdb_delete (Some w) cf_idx key) = Failure msg <->
     exists e, snd (engine_delete w cf_idx key) = Some e /\
               msg = snprintf256 "rocksdb_delete failed: " e) /\
  (forall msg, snd (caml_rocksdb_batch_write (Some w) (Some bw)) = Failure msg <->
     exists e, snd (rocksdb_write (db w) (write_options w) wb) = Some e /\
               msg = snprintf256 "rocksdb_batch_write failed: " e) /\
  (forall msg, snd (caml_rocksdb_flush (Some w)) = Failure msg <->
     exists e, snd (rocksdb_flush (db w) true) = Some e /\
               msg = snprintf256 "rocksdb_flush failed: " e) /\
  (forall name e,
     In name ["rocksdb_put"; "rocksdb_get"; "rocksdb_delete"; "rocksdb_batch_write";
              "rocksdb_flush"] ->
     let p := (name ++ " failed: ")%string in
     snprintf256 p e = substring 0 255 (p ++ e) /\
     String.prefix p (snprintf256 p e) = true /\
     (String.length (snprintf256 p e) <= 255)%nat /\
     ((String.length (p ++ e) <= 255)%nat -> snprintf256 p e = (p ++ e)%string)).
Proof.
  intros Hopen Hb. apply not_open_false in Hopen.
  unfold caml_rocksdb_put, caml_rocksdb_get, caml_rocksdb_delete,
    caml_rocksdb_batch_write, caml_rocksdb_flush, engine_put, engine_lookup,
    engine_delete.
  rewrite Hopen, Hb.
  split; [| split; [| split; [| split; [| split]]]].
  - intros msg.
    destruct (match cf_handle_for w (Int_val cf_idx) with
              | Some h => rocksdb_put_cf (db w) (write_options w) h key val
              | None => rocksdb_put (db w) (write_options w) key val
              end) as [d [e |]]; simpl; split.
    + intros H. inversion H. exists e. split; reflexivity.
    + intros [e' [He Hm]]. inversion He. subst. reflexivity.
    + intros H. discriminate H.
    + intros [e' [He _]]. discriminate He.
  - intros msg.
    destruct (match cf_handle_for w (Int_val cf_idx) with
              | Some h => rocksdb_get_cf (db w) (read_options w) h key
              | None => rocksdb_get (db w) (read_options w) key
              end) as [v [e |]]; simpl; split.
    + intros H. inversion H. exists e. split; reflexivity.
    + intros [e' [He Hm]]. inversion He. subst. reflexivity.
    + intros H. discriminate H.
    + intros [e' [He _]]. discriminate He.
  - intros msg.
    destruct (match cf_handle_for w (Int_val cf_idx) with
              | Some h => rocksdb_delete_cf (db w) (write_options w) h key
              | None => rocksdb_delete (db w) (write_options w) key
              end) as [d [e |]]; simpl; split.
    + intros H. inversion H. exists e. split; reflexivity.
    + intros [e' [He Hm]]. inversion He. subst. reflexivity.
    + intros H. discriminate H.
    + intros [e' [He _]]. discriminate He.
  - intros msg.
    destruct (rocksdb_write (db w) (write_options w) wb) as [d [e |]]; simpl; split.
    + intros H. inversion H. exists e. split; reflexivity.
    + intros [e' [He Hm]]. inversion He. subst. reflexivity.
    + intros H. discriminate H.
    + intros [e' [He _]]. discriminate He.
  - intros msg.
    destruct (rocksdb_flush (db w) true) as [d [e |]]; simpl; split.
    + intros H. inversion H. exists e. split; reflexivity.
    + intros [e' [He Hm]]. inversion He. subst. reflexivity.
    + intros H. discriminate H.
    + intros [e' [He _]]. discriminate He.
  - intros name e Hin. cbv zeta.
    set (p := (name ++ " failed: ")%string).
    assert (Hp : (String.length p <= 255)%nat).
    { unfold p. simpl in Hin.
      destruct Hin as [H | [H | [H | [H | [H | []]]]]]; subst name; simpl; lia. }
    split; [reflexivity |]. split; [| split].
    + apply snprintf256_cut. exact Hp.
    + apply snprintf256_cut. exact Hp.
    + apply snprintf256_short.
Qed.


End MoreStubProperties.

Section OpeningOptions.

Context {E : Engine}.

(** X11.  The wrapper [open] returns carries what the stub decoded: the
    path as the C string it read (the bytes before the first NUL of
    the given path, the whole path when it has none), the caller's
    [create_if_missing], missing column families always created, a
    bloom filter of 10 bits per key, and the compression named by the
    codes 1, 2 and 3 of the compression argument as [Int_val] decodes
    it.  Any other decoded code selects nothing and is not rejected:
    [open] then behaves as with code 0.  Two calls whose paths read as
    the same C string and whose codes decode alike do the same. *)
Theorem open_builds_its_options (env : env_t) (malloc_ok : bool) (p : string)
  (cim : bool) (comp : Z) :
  (forall w,
     caml_rocksdb_open env malloc_ok p cim comp = Ok (Some w) ->
     path w = c_string p /\
     create_if_missing (options w) = cim /\
     create_missing_column_families (options w) = true /\
     bloom_bits_per_key (options w) = Some 10 /\
     compression (options w) =
       if Int_val comp =? 1 then Some rocksdb_snappy_compression
       else if Int_val comp =? 2 then Some rocksdb_lz4_compression
       else if Int_val comp =? 3 then Some rocksdb_zstd_compression
       else None) /\
  (Int_val comp < 1 \/ 3 < Int_val comp ->
   caml_rocksdb_open env malloc_ok p cim comp = caml_rocksdb_open env malloc_ok p cim 0) /\
  (forall q comp', c_string q = c_string p -> Int_val comp' = Int_val comp ->
     caml_rocksdb_open env malloc_ok q cim comp' =
     caml_rocksdb_open env malloc_ok p cim comp) /\
  (INT_MIN <= comp <= INT_MAX -> Int_val comp = comp) /\
  ((forall c, In c (list_ascii_of_string p) -> c <> Ascii.zero) -> c_string p = p) /\
  (forall a b, p = (a ++ String Ascii.zero b)%string -> c_string p = c_string a).
Proof.
  split; [| split; [| split; [| split; [| split]]]].
  - intros w. unfold caml_rocksdb_open.
    assert (Hopt :
      create_if_missing (open_options cim comp) = cim /\
      create_missing_column_families (open_options cim comp) = true /\
      bloom_bits_per_key (open_options cim comp) = Some 10 /\
      compression (open_options cim comp) =
        if Int_val comp =? 1 then Some rocksdb_snappy_compression
        else if Int_val comp =? 2 then Some rocksdb_lz4_compression
        else if Int_val comp =? 3 then Some rocksdb_zstd_compression
        else None).
    { unfold open_options, set_compression.
      destruct (Int_val comp =? 1); [repeat split |].
      destruct (Int_val comp =? 2); [repeat split |].
      destruct (Int_val comp =? 3); repeat split. }
    destruct (rocksdb_open_column_families _ _ _ _ _) as [[d0 hs0] | e0].
    + destruct malloc_ok; intros H; inversion H; subst. simpl.
      split; [reflexivity | exact Hopt].
    + destruct (rocksdb_open _ _ _) as [d1 | e1]; [| intros H; discriminate H].
      destruct (create_column_families _ _ _) as [d2 hs2].
      destruct malloc_ok; intros H; inversion H; subst. simpl.
      split; [reflexivity | exact Hopt].
  - intros Hc.
    assert (Ho : open_options cim comp = open_options cim 0).
    { unfold open_options, set_compression.
      replace (Int_val comp =? 1) with false by (symmetry; apply Z.eqb_neq; lia).
      replace (Int_val comp =? 2) with false by (symmetry; apply Z.eqb_neq; lia).
      replace (Int_val comp =? 3) with false by (symmetry; apply Z.eqb_neq; lia).
      reflexivity. }
    unfold caml_rocksdb_open. rewrite Ho. reflexivity.
  - intros q comp' Hq Hcomp.
    unfold caml_rocksdb_open, open_options. rewrite Hq, Hcomp. reflexivity.
  - apply Int_val_in_range.
  - apply c_string_whole.
  - intros a b Hp. subst p. apply c_string_app_nul.
Qed.

(** X13.  On an open database [get_property] never raises and returns
    what the engine answers, none included, for the name read as a C
    string, so that two names that agree before their first NUL byte
    get one answer; [compact_range] never raises; [flush] asks the
    engine to wait and raises exactly when the engine reports an
    error. *)
Theorem maintenance_on_an_open_database (w : rocksdb_wrapper) (cf_idx : Z)
  (property : string) :
  is_open w <> 0 ->
  caml_rocksdb_get_property (Some w) property =
    Ok (rocksdb_property_value (db w) (c_string property)) /\
  (forall q, c_string q = c_string property ->
     caml_rocksdb_get_property (Some w) q = caml_rocksdb_get_property (Some w) property) /\
  (forall a b, caml_rocksdb_get_property (Some w) (a ++ String Ascii.zero b) =
               caml_rocksdb_get_property (Some w) (c_string a)) /\
  snd (caml_rocksdb_compact_range (Some w) cf_idx) = Ok tt /\
  fst (caml_rocksdb_flush (Some w)) = Some (with_db w (fst (rocksdb_flush (db w) true))) /\
  (snd (caml_rocksdb_flush (Some w)) = Ok tt <-> snd (rocksdb_flush (db w) true) = None).
Proof.
  intros Hopen. apply not_open_false in Hopen.
  unfold caml_rocksdb_get_property, caml_rocksdb_compact_range, caml_rocksdb_flush.
  rewrite Hopen.
  split; [reflexivity |].
  split; [intros q Hq; rewrite Hq; reflexivity |].
  split.
  { intros a b. rewrite c_string_app_nul.
    assert (Hi : c_string (c_string a) = c_string a).
    { induction a as [| c a IH]; simpl; [reflexivity |].
      destruct (Ascii.eqb c Ascii.zero) eqn:Hc; simpl; [reflexivity |].
      rewrite Hc, IH. reflexivity. }
    rewrite Hi. reflexivity. }
  destruct (rocksdb_flush (db w) true) as [d [e |]]; simpl; repeat split;
    intros H; try discriminate H; reflexivity.
Qed.


End OpeningOptions.

(** ** Round trips, with the engine's documented behaviour *)

Lemma apply_ops_last_write (ops : list batch_op) :
  forall (m : string -> option string) (k : string),
    apply_ops ops m k =
    match last_write ops k with
    | Some r => r
    | None => m k
    end.
Proof.
  unfold apply_ops. induction ops as [| op rest IH]; intros m k; simpl.
  - reflexivity.
  - rewrite IH. destruct (last_write rest k) as [r |]; [reflexivity |].
    unfold apply_op. destruct op as [key val | key];
      destruct (String.eqb k key); reflexivity.
Qed.

Section RoundTrips.

Context {E : Engine} {V : EngineViews E} {O : EngineOk E V}.

Lemma batch_write_done (w : rocksdb_wrapper) (b : batch_val) (d' : db_val) :
  is_open w <> 0 ->
  caml_rocksdb_batch_write (Some w) b = (d', Ok tt) ->
  exists bw wb dn,
    b = Some bw /\ batch bw = Some wb /\ d' = Some (with_db w dn) /\
    rocksdb_write (db w) (write_options w) wb = (dn, None).
Proof.
  intros Hopen. apply not_open_false in Hopen.
  unfold caml_rocksdb_batch_write. rewrite Hopen.
  destruct b as [bw |]; [| intros H; discriminate H].
  destruct (batch bw) as [wb |] eqn:Hb; [| intros H; discriminate H].
  destruct (rocksdb_write (db w) (write_options w) wb) as [dn [e |]] eqn:Hw;
    intros H; inversion H.
  exists bw, wb, dn. repeat split; assumption.
Qed.

Lemma get_returned (w : rocksdb_wrapper) (cf_idx : Z) (k : string) (r : option string) :
  is_open w <> 0 ->
  read_options w = rocksdb_readoptions_create ->
  caml_rocksdb_get (Some w) cf_idx k = Ok r ->
  r = committed (db w)
        (match cf_handle_for w (Int_val cf_idx) with Some h => Some h | None => None end) k.
Proof.
  intros Hopen Hro. apply not_open_false in Hopen.
  unfold caml_rocksdb_get. rewrite Hopen, Hro.
  destruct (cf_handle_for w (Int_val cf_idx)) as [h |].
  - destruct (rocksdb_get_cf _ _ _ _) as [v [e |]] eqn:Hg; intros H; inversion H; subst.
    apply get_cf_committed. exact Hg.
  - destruct (rocksdb_get _ _ _) as [v [e |]] eqn:Hg; intros H; inversion H; subst.
    apply get_committed. exact Hg.
Qed.

(** X3.  All indices that decode out of range name one namespace: a
    value put under an index that [Int_val] decodes out of range
    (negative, zero, at or beyond the count, a NULL slot) is what a read
    of the key returns under any other such index, whenever the read
    returns. *)
Theorem out_of_range_indices_share_the_default (w : rocksdb_wrapper) (i j : Z)
  (key val : string) (d' : db_val) :
  is_open w <> 0 ->
  read_options w = rocksdb_readoptions_create ->
  out_of_range w (Int_val i) ->
  out_of_range w (Int_val j) ->
  caml_rocksdb_put (Some w) i key val = (d', Ok tt) ->
  (forall r, caml_rocksdb_get d' j key = Ok r -> r = Some val) /\
  (forall r, caml_rocksdb_get d' 0 key = Ok r -> r = Some val).
Proof.
  intros Hopen Hro Hi Hj Hput.
  pose proof (not_open_false w Hopen) as Ho.
  apply cf_handle_for_out_of_range in Hi.
  unfold caml_rocksdb_put in Hput. rewrite Ho, Hi in Hput.
  destruct (rocksdb_put (db w) (write_options w) key val) as [dn [e |]] eqn:Hp;
    inversion Hput; subst d'.
  apply put_committed in Hp.
  split; intros r Hr; apply get_returned in Hr; try assumption.
  - change (cf_handle_for (with_db w dn) (Int_val j)) with (cf_handle_for w (Int_val j)) in Hr.
    rewrite (cf_handle_for_out_of_range w (Int_val j) Hj) in Hr. simpl in Hr. congruence.
  - simpl in Hr. congruence.
Qed.

(** X7.  A committed batch is read back: after [batch_write] returns for
    a batch filled by any sequence of put, delete and clear calls, a
    read of a key in the default namespace that returns yields the
    value of the last pending put of that key, nothing when its last
    pending operation is a delete, and what was committed before when
    no pending operation names it. *)
Theorem committed_batch_is_read_back (w : rocksdb_wrapper) (cs : list batch_call)
  (cf_idx : Z) (k : string) (d' : db_val) :
  is_open w <> 0 ->
  read_options w = rocksdb_readoptions_create ->
  out_of_range w (Int_val cf_idx) ->
  caml_rocksdb_batch_write (Some w) (run_calls fresh_batch cs) = (d', Ok tt) ->
  forall r, caml_rocksdb_get d' cf_idx k = Ok r ->
    r = match last_write (pending_after [] cs) k with
        | Some v => v
        | None => committed (db w) None k
        end.
Proof.
  intros Hopen Hro Hout Hw r Hr.
  destruct (batch_write_done w _ d' Hopen Hw) as [bw [wb [dn [Hb [Hwb [Hd Hwrite]]]]]].
  subst d'.
  assert (H0 : counted {| batch := Some rocksdb_writebatch_create; n_ops := 0 |}
                 rocksdb_writebatch_create).
  { unfold counted. simpl. rewrite pending_create. split; reflexivity. }
  destruct (counted_run cs _ _ H0) as [w1 [wb1 [Hrun [[Hb1 _] Hp]]]].
  unfold fresh_batch in Hb. rewrite Hrun in Hb. inversion Hb; subst w1.
  rewrite Hwb in Hb1. inversion Hb1; subst wb1.
  rewrite pending_create in Hp.
  apply get_returned in Hr; try assumption.
  change (cf_handle_for (with_db w dn) (Int_val cf_idx))
    with (cf_handle_for w (Int_val cf_idx)) in Hr.
  rewrite (cf_handle_for_out_of_range w (Int_val cf_idx) Hout) in Hr. simpl in Hr.
  rewrite Hr, (write_committed _ _ _ _ Hwrite), Hp.
  apply apply_ops_last_write.
Qed.

(** X8.  Committing the same batch a second time, right after the
    first, changes nothing: after the second commit the default
    namespace holds what it held after the first, which for a key the
    batch names is the batch's last write of it and for any other key
    what was there before the first commit. *)
Theorem committing_a_batch_again (w w1 w2 : rocksdb_wrapper)
  (bw : rocksdb_batch_wrapper) (wb : writebatch_t) :
  is_open w <> 0 ->
  batch bw = Some wb ->
  caml_rocksdb_batch_write (Some w) (Some bw) = (Some w1, Ok tt) ->
  caml_rocksdb_batch_write (Some w1) (Some bw) = (Some w2, Ok tt) ->
  forall k,
    committed (db w2) None k = committed (db w1) None k /\
    committed (db w2) None k =
      match last_write (pending wb) k with
      | Some r => r
      | None => committed (db w) None k
      end.
Proof.
  intros Hopen Hbw H1 H2 k.
  destruct (batch_write_done w _ _ Hopen H1) as [bw1 [wb1 [d1 [Hb [Hwb [Hd1 Hw1]]]]]].
  inversion Hd1; subst w1. inversion Hb; subst bw1.
  rewrite Hbw in Hwb. inversion Hwb; subst wb1.
  destruct (batch_write_done (with_db w d1) _ _ Hopen H2)
    as [bw' [wb' [d2 [Hb' [Hwb' [Hd2 Hw2]]]]]].
  inversion Hd2; subst w2. inversion Hb'; subst bw'.
  rewrite Hbw in Hwb'. inversion Hwb'; subst wb'.
  simpl in *.
  rewrite (write_committed _ _ _ _ Hw2), apply_ops_last_write.
  rewrite (write_committed _ _ _ _ Hw1), apply_ops_last_write.
  destruct (last_write (pending wb) k); split; reflexivity.
Qed.

(** X9.  A cleared batch commits nothing: after [batch_clear] the count
    is 0 and a [batch_write] of the batch that returns leaves the
    default namespace as it was. *)
Theorem cleared_batch_commits_nothing (w : rocksdb_wrapper) (b b' : batch_val)
  (d' : db_val) :
  is_open w <> 0 ->
  caml_rocksdb_batch_clear b = (b', Ok tt) ->
  caml_rocksdb_batch_write (Some w) b' = (d', Ok tt) ->
  caml_rocksdb_batch_count b' = Ok 0 /\
  exists w', d' = Some w' /\
    forall k, committed (db w') None k = committed (db w) None k.
Proof.
  intros Hopen Hc Hw.
  unfold caml_rocksdb_batch_clear in Hc.
  destruct b as [bw0 |]; [| discriminate Hc].
  destruct (batch bw0) as [wb0 |]; [| discriminate Hc].
  inversion Hc; subst b'. split; [reflexivity |].
  destruct (batch_write_done w _ d' Hopen Hw) as [bw [wb [dn [Hb [Hwb [Hd Hwrite]]]]]].
  inversion Hb; subst bw. simpl in Hwb. inversion Hwb; subst wb.
  exists (with_db w dn). split; [exact Hd |].
  intros k. simpl. rewrite (write_committed _ _ _ _ Hwrite), pending_clear.
  reflexivity.
Qed.

Section Deletes.

Context {D : EngineDeletes E V}.

(** X6.  After a delete that returned, [exists] on the same index and
    key answers [false] in every case (a failed lookup is answered
    [false] as well), and a [get] that returns yields no value. *)
Theorem exists_after_delete_is_false (w : rocksdb_wrapper) (cf_idx : Z)
  (key : string) (d' : db_val) :
  is_open w <> 0 ->
  read_options w = rocksdb_readoptions_create ->
  caml_rocksdb_delete (Some w) cf_idx key = (d', Ok tt) ->
  caml_rocksdb_exists d' cf_idx key = Ok false /\
  (forall r, caml_rocksdb_get d' cf_idx key = Ok r -> r = None).
Proof.
  intros Hopen Hro Hdel.
  pose proof (not_open_false w Hopen) as Ho.
  unfold caml_rocksdb_delete in Hdel. rewrite Ho in Hdel.
  assert (Hc : exists dn, d' = Some (with_db w dn) /\
             committed dn (match cf_handle_for w (Int_val cf_idx) with
                           | Some h => Some h | None => None end) key = None).
  { destruct (cf_handle_for w (Int_val cf_idx)) as [h |].
    - destruct (rocksdb_delete_cf _ _ _ _) as [dn [e |]] eqn:Hd; inversion Hdel.
      exists dn. split; [reflexivity |]. eapply delete_cf_committed. exact Hd.
    - destruct (rocksdb_delete _ _ _) as [dn [e |]] eqn:Hd; inversion Hdel.
      exists dn. split; [reflexivity |]. eapply delete_committed. exact Hd. }
  destruct Hc as [dn [Hd Hc]]. subst d'.
  assert (Hget : forall r, caml_rocksdb_get (Some (with_db w dn)) cf_idx key = Ok r ->
                           r = None).
  { intros r Hr. apply get_returned in Hr; try assumption.
    change (cf_handle_for (with_db w dn) (Int_val cf_idx))
      with (cf_handle_for w (Int_val cf_idx)) in Hr.
    simpl in Hr. rewrite Hr. exact Hc. }
  split; [| exact Hget].
  revert Hget. unfold caml_rocksdb_exists, caml_rocksdb_get. simpl. rewrite Ho.
  destruct (match cf_handle_for (with_db w dn) (Int_val cf_idx) with
            | Some h => rocksdb_get_cf dn (read_options w) h key
            | None => rocksdb_get dn (read_options w) key
            end) as [[v |] [e |]]; intros Hget; try reflexivity.
  specialize (Hget (Some v) eq_refl). discriminate Hget.
Qed.

End Deletes.

End RoundTrips.

Section NullSlots.

Context {E : Engine}.

Lemma point_operations_by_handle (w : rocksdb_wrapper) (i j : Z) (key val : string) :
  cf_handle_for w (Int_val i) = cf_handle_for w (Int_val j) ->
  caml_rocksdb_put (Some w) i key val = caml_rocksdb_put (Some w) j key val /\
  caml_rocksdb_get (Some w) i key = caml_rocksdb_get (Some w) j key /\
  caml_rocksdb_delete (Some w) i key = caml_rocksdb_delete (Some w) j key /\
  caml_rocksdb_exists (Some w) i key = caml_rocksdb_exists (Some w) j key.
Proof.
  intros H.
  unfold caml_rocksdb_put, caml_rocksdb_get, caml_rocksdb_delete, caml_rocksdb_exists.
  rewrite H. repeat split.
Qed.

Lemma nth_create_call_slot (o : rocksdb_options_t) (names : list string) :
  forall d j r,
    nth_create_call d o names j = Some r ->
    (j < List.length names)%nat /\
    nth j (snd (create_column_families d o names)) None = snd (fst r).
Proof.
  induction names as [| name rest IH]; intros d j r H; simpl in H.
  - discriminate H.
  - simpl. destruct (rocksdb_create_column_family d o name) as [[d1 h] err].
    destruct j as [| j'].
    + inversion H; subst r.
      destruct (create_column_families d1 o rest) as [d2 hs]. simpl.
      split; [lia | reflexivity].
    + simpl in H. apply IH in H. destruct H as [Hj Hn].
      destruct (create_column_families d1 o rest) as [d2 hs]. simpl in *.
      split; [lia | exact Hn].
Qed.

(** X10.  On its second route [open] drops the error of every create
    call and returns a handle all the same: registry slot [j+1] holds
    the pointer that the call for the [j]-th name returned, whether or
    not that call reported an error.  When that pointer is NULL, an
    index that decodes to the slot makes put, get, delete and exists
    behave exactly as with index 0; when it is not, they use it as the
    handle of the namespace. *)
Theorem create_errors_are_dropped (env : env_t) (p : string) (cim : bool)
  (comp : Z) (e : string) (d : rocksdb_t) :
  first_attempt env (open_options cim comp) (c_string p) = Err e ->
  rocksdb_open env (open_options cim comp) (c_string p) = Done d ->
  exists w,
    caml_rocksdb_open env true p cim comp = Ok (Some w) /\
    is_open w <> 0 /\
    forall j d' h err cf_index key val,
      nth_create_call d (open_options cim comp)
        [CF_NODES; CF_LINKS; CF_INCOMING; CF_OUTGOING;
         CF_ATTENTION; CF_TRUTH_VALUES; CF_METADATA] j = Some (d', h, err) ->
      Int_val cf_index = Z.of_nat (S j) ->
      nth (S j) (cf_handles w) None = h /\
      match h with
      | None =>
          caml_rocksdb_put (Some w) cf_index key val = caml_rocksdb_put (Some w) 0 key val /\
          caml_rocksdb_get (Some w) cf_index key = caml_rocksdb_get (Some w) 0 key /\
          caml_rocksdb_delete (Some w) cf_index key = caml_rocksdb_delete (Some w) 0 key /\
          caml_rocksdb_exists (Some w) cf_index key = caml_rocksdb_exists (Some w) 0 key
      | Some h' =>
          engine_put w cf_index key val =
            rocksdb_put_cf (db w) (write_options w) h' key val /\
          engine_lookup w cf_index key = rocksdb_get_cf (db w) (read_options w) h' key /\
          engine_delete w cf_index key = rocksdb_delete_cf (db w) (write_options w) h' key
      end.
Proof.
  unfold first_attempt, caml_rocksdb_open. intros H1 H2. rewrite H1, H2.
  change (skipn 1 cf_names) with
    [CF_NODES; CF_LINKS; CF_INCOMING; CF_OUTGOING;
     CF_ATTENTION; CF_TRUTH_VALUES; CF_METADATA].
  pose proof (nth_create_call_slot (open_options cim comp)
    [CF_NODES; CF_LINKS; CF_INCOMING; CF_OUTGOING;
     CF_ATTENTION; CF_TRUTH_VALUES; CF_METADATA] d) as Hslot.
  destruct (create_column_families d (open_options cim comp)
              [CF_NODES; CF_LINKS; CF_INCOMING; CF_OUTGOING;
               CF_ATTENTION; CF_TRUTH_VALUES; CF_METADATA]) as [d2 hs2].
  eexists. split; [reflexivity |]. split; [simpl; discriminate |].
  intros j d' h err cf_index key val Hcall Hidx.
  apply Hslot in Hcall. simpl in Hcall. destruct Hcall as [Hj Hn].
  split; [exact Hn |].
  match goal with
  | |- context [caml_rocksdb_put (Some ?w0) _ _ _] => set (w := w0)
  | |- context [engine_put ?w0 _ _ _] => set (w := w0)
  end.
  destruct h as [h' |].
  - assert (Hh : cf_handle_for w (Int_val cf_index) = Some h').
    { apply cf_handle_for_names. unfold names_handle. rewrite Hidx, Nat2Z.id.
      split; [change (n_cf w) with 8; lia | exact Hn]. }
    unfold engine_put, engine_lookup, engine_delete.
    rewrite Hh. repeat split.
  - apply point_operations_by_handle.
    rewrite cf_handle_for_out_of_range.
    + reflexivity.
    + right; right. rewrite Hidx, Nat2Z.id. exact Hn.
Qed.

End NullSlots.

#[export] Instance RefDeletes : EngineDeletes RefEngine RefViews.
Proof.
  constructor; simpl.
  - intros d _ k d' H. apply update_done in H. destruct H as [st [_ H]].
    rewrite H. apply store_get_remove_same.
  - intros d _ h k d' H. apply update_done in H. destruct H as [st [_ H]].
    rewrite H. apply store_get_remove_same.
Qed.

(** ** The further properties on the in-memory engine *)

Lemma close_once_or_twice_witness :
  caml_rocksdb_is_open (Some Sample.wrapper) = Ok true /\
  caml_rocksdb_close (Some Sample.wrapper) = (None, Ok tt) /\
  caml_rocksdb_close Sample.closed = (Sample.closed, Ok tt).
Proof.
  destruct (close_once_or_twice (Some Sample.wrapper)) as [_ [_ [H2 H]]].
  destruct (H Sample.wrapper eq_refl sample_is_open) as [Ho Hc].
  split; [exact Ho |]. split; [exact Hc | exact H2].
Defined.

Lemma calls_keep_the_database_open_witness :
  caml_rocksdb_open Sample.fresh_env true "/var/lib/atomspace" true 0 =
    Ok (Some Sample.wrapper) /\
  caml_rocksdb_is_open
    (run_db_calls (Some Sample.wrapper)
       [DoPut 1 "K" "V"; DoFlush; DoBatchWrite None; DoDelete 9 "K"; DoCompactRange 2]) =
    Ok true.
Proof.
  split; [reflexivity |].
  destruct (calls_keep_the_database_open (E := RefEngine) Sample.fresh_env true
              "/var/lib/atomspace" true 0 Sample.wrapper
              [DoPut 1 "K" "V"; DoFlush; DoBatchWrite None; DoDelete 9 "K";
               DoCompactRange 2] eq_refl)
    as [d [_ [_ H]]].
  exact H.
Defined.

Lemma iter_create_and_compact_range_by_index_witness :
  caml_rocksdb_iter_create (Some Sample.wrapper) true 9 =
    Ok (Some {| iter := Some (rocksdb_create_iterator (db Sample.wrapper) None);
                cf_index := 9 |}) /\
  caml_rocksdb_iter_create (Some Sample.wrapper) true 2 =
    Ok (Some {| iter := Some (rocksdb_create_iterator_cf (db Sample.wrapper) None "links");
                cf_index := 2 |}) /\
  caml_rocksdb_iter_create (Some Sample.wrapper) true 4294967298 =
    Ok (Some {| iter := Some (rocksdb_create_iterator_cf (db Sample.wrapper) None "links");
                cf_index := 2 |}).
Proof.
  destruct (iter_create_and_compact_range_by_index Sample.wrapper 9 sample_is_open)
    as [H9 _].
  destruct (iter_create_and_compact_range_by_index Sample.wrapper 2 sample_is_open)
    as [_ [H2 _]].
  destruct (iter_create_and_compact_range_by_index Sample.wrapper 4294967298
              sample_is_open) as [_ [Hw _]].
  split; [| split].
  - apply H9. right; left. vm_compute. discriminate.
  - apply (H2 "links"). split; [split; reflexivity | reflexivity].
  - apply (Hw "links"). split; [split; reflexivity | reflexivity].
Defined.

Lemma engine_errors_are_named_and_cut_witness :
  snd (caml_rocksdb_put (Some (Sample.failing Sample.wrapper)) 1 "K" "V") =
    Failure "rocksdb_put failed: IO error: No space left on device" /\
  snd (caml_rocksdb_batch_write (Some (Sample.failing Sample.wrapper)) (Some
         (@Build_rocksdb_batch_wrapper RefEngine (Some []) 0))) =
    Failure "rocksdb_batch_write failed: IO error: No space left on device" /\
  snprintf256 "rocksdb_flush failed: " "IO error: No space left on device" =
    "rocksdb_flush failed: IO error: No space left on device".
Proof.
  destruct (engine_errors_are_named_and_cut (Sample.failing Sample.wrapper) 1 "K" "V"
              (@Build_rocksdb_batch_wrapper RefEngine (Some []) 0) [] sample_is_open eq_refl)
    as [Hput [_ [_ [Hwrite [_ Htext]]]]].
  split; [| split].
  - apply Hput. exists "IO error: No space left on device". split; reflexivity.
  - apply Hwrite. exists "IO error: No space left on device". split; reflexivity.
  - apply (Htext "rocksdb_flush" "IO error: No space left on device").
    + simpl. tauto.
    + simpl. lia.
Defined.


Lemma open_builds_its_options_witness :
  (exists w,
     caml_rocksdb_open Sample.fresh_env true "/var/lib/atomspace" true 2 = Ok (Some w) /\
     compression (options w) = Some rocksdb_lz4_compression /\
     create_if_missing (options w) = true) /\
  caml_rocksdb_open Sample.fresh_env true "/var/lib/atomspace" true 7 =
    caml_rocksdb_open Sample.fresh_env true "/var/lib/atomspace" true 0 /\
  caml_rocksdb_open Sample.fresh_env true
    ("/var/lib/atomspace" ++ String Ascii.zero "/hidden") true 4294967298 =
    caml_rocksdb_open Sample.fresh_env true "/var/lib/atomspace" true 2.
Proof.
  split; [| split].
  - eexists. split; [reflexivity |].
    destruct (open_builds_its_options (E := RefEngine) Sample.fresh_env true
                "/var/lib/atomspace" true 2) as [H _].
    destruct (H _ eq_refl) as [_ [Hc [_ [_ Hz]]]].
    split; [exact Hz | exact Hc].
  - destruct (open_builds_its_options (E := RefEngine) Sample.fresh_env true
                "/var/lib/atomspace" true 7) as [_ [H _]].
    apply H. right. vm_compute. reflexivity.
  - destruct (open_builds_its_options (E := RefEngine) Sample.fresh_env true
                "/var/lib/atomspace" true 2) as [_ [_ [H _]]].
    apply H; reflexivity.
Defined.

Lemma maintenance_on_an_open_database_witness :
  caml_rocksdb_get_property (Some Sample.wrapper) "rocksdb.no-such-property" = Ok None /\
  caml_rocksdb_get_property (Some Sample.wrapper)
    ("rocksdb.stats" ++ String Ascii.zero "ignored") =
    caml_rocksdb_get_property (Some Sample.wrapper) "rocksdb.stats" /\
  snd (caml_rocksdb_flush (Some Sample.wrapper)) = Ok tt.
Proof.
  destruct (maintenance_on_an_open_database Sample.wrapper 3 "rocksdb.no-such-property"
              sample_is_open) as [Hp [_ [Hn [_ [_ Hf]]]]].
  split; [exact Hp |]. split; [| apply Hf; reflexivity].
  apply (Hn "rocksdb.stats" "ignored").
Defined.

Lemma out_of_range_indices_share_the_default_witness :
  caml_rocksdb_put (Some Sample.wrapper) (-1) "K" "V" =
    (fst (caml_rocksdb_put (Some Sample.wrapper) (-1) "K" "V"), Ok tt) /\
  caml_rocksdb_get (fst (caml_rocksdb_put (Some Sample.wrapper) (-1) "K" "V")) 99 "K" =
    Ok (Some "V").
Proof.
  split; [reflexivity |].
  assert (Hm : out_of_range Sample.wrapper (Int_val (-1)))
    by (left; vm_compute; discriminate).
  assert (Hp : out_of_range Sample.wrapper (Int_val 99))
    by (right; left; vm_compute; discriminate).
  destruct (out_of_range_indices_share_the_default Sample.wrapper (-1) 99 "K" "V"
              (fst (caml_rocksdb_put (Some Sample.wrapper) (-1) "K" "V"))
              sample_is_open eq_refl Hm Hp eq_refl) as [H _].
  exact (f_equal Ok (eq_sym (H (Some "V") eq_refl))).
Defined.

Lemma committed_batch_is_read_back_witness :
  caml_rocksdb_get (fst (caml_rocksdb_batch_write (Some Sample.wrapper) Sample.batch_ab))
    0 "a" = Ok (Some "1") /\
  caml_rocksdb_get (fst (caml_rocksdb_batch_write (Some Sample.wrapper) Sample.batch_ab))
    0 "z" = Ok None.
Proof.
  assert (H0 : out_of_range Sample.wrapper (Int_val 0))
    by (left; vm_compute; discriminate).
  split.
  - exact (f_equal Ok (eq_sym
      (committed_batch_is_read_back Sample.wrapper
         [CallPut "a" "1"; CallDelete "z"; CallPut "b" "2"] 0 "a"
         (fst (caml_rocksdb_batch_write (Some Sample.wrapper) Sample.batch_ab))
         sample_is_open eq_refl H0 eq_refl (Some "1") eq_refl))).
  - exact (f_equal Ok (eq_sym
      (committed_batch_is_read_back Sample.wrapper
         [CallPut "a" "1"; CallDelete "z"; CallPut "b" "2"] 0 "z"
         (fst (caml_rocksdb_batch_write (Some Sample.wrapper) Sample.batch_ab))
         sample_is_open eq_refl H0 eq_refl None eq_refl))).
Defined.

Lemma committing_a_batch_again_witness :
  exists w1 w2,
    caml_rocksdb_batch_write (Some Sample.wrapper) Sample.batch_ab = (Some w1, Ok tt) /\
    caml_rocksdb_batch_write (Some w1) Sample.batch_ab = (Some w2, Ok tt) /\
    committed (db w2) None "a" = committed (db w1) None "a" /\
    committed (db w2) None "a" = Some "1".
Proof.
  eexists. eexists. split; [reflexivity |]. split; [reflexivity |].
  destruct (committing_a_batch_again Sample.wrapper _ _
              (@Build_rocksdb_batch_wrapper RefEngine
                 (Some [BPut "a" "1"; BDelete "z"; BPut "b" "2"]) 3)
              [BPut "a" "1"; BDelete "z"; BPut "b" "2"]
              sample_is_open eq_refl eq_refl eq_refl "a") as [Hsame Hlast].
  split; [exact Hsame | exact Hlast].
Defined.

Lemma cleared_batch_commits_nothing_witness :
  caml_rocksdb_batch_count (fst (caml_rocksdb_batch_clear Sample.batch_ab)) = Ok 0 /\
  caml_rocksdb_get
    (fst (caml_rocksdb_batch_write (Some Sample.wrapper)
            (fst (caml_rocksdb_batch_clear Sample.batch_ab)))) 0 "a" = Ok None.
Proof.
  destruct (cleared_batch_commits_nothing Sample.wrapper Sample.batch_ab
              (fst (caml_rocksdb_batch_clear Sample.batch_ab))
              (fst (caml_rocksdb_batch_write (Some Sample.wrapper)
                      (fst (caml_rocksdb_batch_clear Sample.batch_ab))))
              sample_is_open eq_refl eq_refl) as [Hc _].
  split; [exact Hc | reflexivity].
Defined.

Lemma exists_after_delete_is_false_witness :
  caml_rocksdb_exists Sample.after_v2 1 "K" = Ok true /\
  snd (caml_rocksdb_delete Sample.after_v2 1 "K") = Ok tt /\
  caml_rocksdb_exists (fst (caml_rocksdb_delete Sample.after_v2 1 "K")) 1 "K" = Ok false.
Proof.
  split; [reflexivity |]. split; [reflexivity |].
  apply (proj1 (exists_after_delete_is_false
                  (with_db Sample.wrapper
                     (fst (rocksdb_put_cf
                             (fst (rocksdb_put_cf (db Sample.wrapper) tt "nodes" "K" "V1"))
                             tt "nodes" "K" "V2")))
                  1 "K" (fst (caml_rocksdb_delete Sample.after_v2 1 "K"))
                  sample_is_open eq_refl eq_refl)).
Defined.

Lemma create_errors_are_dropped_witness :
  exists w,
    caml_rocksdb_open
      {| Ref.on_disk := Some [(CF_DEFAULT, []); (CF_NODES, [("n1", "node")])];
         Ref.registry_error := Some "Invalid argument: Column families not opened";
         Ref.io_fault := None |}
      true "/var/lib/atomspace" true 0 = Ok (Some w) /\
    nth 1 (cf_handles w) None = None /\
    caml_rocksdb_get (Some w) 1 "n1" = caml_rocksdb_get (Some w) 0 "n1" /\
    nth 2 (cf_handles w) None = Some CF_LINKS.
Proof.
  destruct (create_errors_are_dropped (E := RefEngine)
              {| Ref.on_disk := Some [(CF_DEFAULT, []); (CF_NODES, [("n1", "node")])];
                 Ref.registry_error := Some "Invalid argument: Column families not opened";
                 Ref.io_fault := None |}
              "/var/lib/atomspace" true 0 _ _ eq_refl eq_refl) as [w [Hw [_ H]]].
  exists w. split; [exact Hw |].
  destruct (H 0%nat _ None (Some "Invalid argument: Column family already exists")
              1 "n1" "V" eq_refl eq_refl) as [Hnull [_ [Hget _]]].
  destruct (H 1%nat _ (Some CF_LINKS) None 2 "n1" "V" eq_refl eq_refl) as [Hlinks _].
  split; [exact Hnull |]. split; [exact Hget | exact Hlinks].
Defined.

(** * Properties of the context stubs of [ggml_native.c] *)

Lemma set_nth_length {A : Type} (l : list A) (n : nat) (a : A) :
  List.length (Ggml.set_nth l n a) = List.length l.
Proof.
  revert n. induction l as [| x rest IH]; intros [| n]; simpl; try reflexivity.
  rewrite IH. reflexivity.
Qed.

Lemma nth_set_nth_same {A : Type} (l : list A) (n : nat) (a d : A) :
  (n < List.length l)%nat -> nth n (Ggml.set_nth l n a) d = a.
Proof.
  revert n. induction l as [| x rest IH]; intros [| n]; simpl; intros H;
    try lia; try reflexivity.
  apply IH. lia.
Qed.

Lemma nth_set_nth_other {A : Type} (l : list A) (n m : nat) (a d : A) :
  n <> m -> nth m (Ggml.set_nth l n a) d = nth m l d.
Proof.
  revert n m. induction l as [| x rest IH]; intros [| n] [| m] H; simpl;
    try reflexivity; try contradiction.
  apply IH. congruence.
Qed.

(** X16.  The three places that name the backend agree in every build:
    [backend_name] is "CUDA", "Metal", "CPU" or "Stub" exactly when
    [backend_type] is 1, 2, 0 or 99, CUDA wins over Metal when both are
    configured, and the context [init] returns records the backend that
    [backend_type] reports. *)
Theorem backend_is_named_consistently {L : Ggml.Library} (b : Ggml.build) :
  (Ggml.caml_ggml_native_backend_type b = Ok 1 <->
   Ggml.caml_ggml_native_backend_name b = Ok "CUDA") /\
  (Ggml.caml_ggml_native_backend_type b = Ok 2 <->
   Ggml.caml_ggml_native_backend_name b = Ok "Metal") /\
  (Ggml.caml_ggml_native_backend_type b = Ok 0 <->
   Ggml.caml_ggml_native_backend_name b = Ok "CPU") /\
  (Ggml.caml_ggml_native_backend_type b = Ok 99 <->
   Ggml.caml_ggml_native_backend_name b = Ok "Stub") /\
  (Ggml.HAVE_GGML b = true -> Ggml.GGML_USE_CUDA b = true ->
   Ggml.caml_ggml_native_backend_type b = Ok Ggml.BACKEND_CUDA) /\
  (forall r size threads r' w,
     Ggml.HAVE_GGML b = true ->
     Ggml.caml_ggml_native_init b r true size threads = (r', Ok (Some w)) ->
     Ggml.caml_ggml_native_backend_type b = Ok (Ggml.backend w)).
Proof.
  unfold Ggml.caml_ggml_native_backend_type, Ggml.caml_ggml_native_backend_name,
    Ggml.caml_ggml_native_init.
  destruct b as [[|] [|] [|]]; simpl;
    (repeat split; intros; try discriminate; try reflexivity);
    match goal with
    | H : (match Ggml.ggml_init ?s with _ => _ end) = _ |- _ =>
        destruct (Ggml.ggml_init s); inversion H; reflexivity
    end.
Qed.

Lemma Val_long_size_of_long (v : Z) :
  - 2 ^ 62 <= v < 2 ^ 62 -> Ggml.Val_long (Ggml.size_of_long v) = v.
Proof.
  intros H. unfold Ggml.Val_long, Ggml.size_of_long.
  change (2 ^ 62) with 4611686018427387904 in *.
  change (2 ^ 63) with 9223372036854775808.
  change (2 ^ 64) with 18446744073709551616.
  destruct (Z.ltb_spec v 0) as [Hneg | Hpos].
  - rewrite <- (Z.mod_unique_pos v 18446744073709551616 (-1) (v + 18446744073709551616))
      by lia.
    rewrite <- (Z.mod_unique_pos (v + 18446744073709551616 + 4611686018427387904)
                  9223372036854775808 2 (v + 4611686018427387904)) by lia.
    lia.
  - rewrite (Z.mod_small v) by lia.
    rewrite Z.mod_small by lia. lia.
Qed.

(** X17.  [init] decodes the thread count with [Int_val], which keeps
    its low 32 bits as a C [int], and stores the decoded count when it
    is positive and 4 otherwise, so a new context always has a positive
    count; [set_n_threads] stores whatever [Int_val] decodes, zero and
    negative counts included, and changes nothing else: the memory size
    reported stays the one given to [init], and [graph_compute] hands
    the stored count to the library.  A count that fits a C [int] is
    decoded to itself.  In the build without GGML [init] returns no
    context: it raises "not available" and leaves the table alone. *)
Theorem thread_count_is_normalised_by_init_only {L : Ggml.Library} (b : Ggml.build)
  (r : Ggml.registry) (malloc_ok : bool) (size threads : Z) :
  (Ggml.HAVE_GGML b = false ->
   Ggml.caml_ggml_native_init b r malloc_ok size threads =
     (r, Failure Ggml.ggml_native_not_available)) /\
  (INT_MIN <= threads <= INT_MAX -> Int_val threads = threads) /\
  forall r' w,
    Ggml.caml_ggml_native_init b r malloc_ok size threads = (r', Ok (Some w)) ->
    Ggml.HAVE_GGML b = true /\
    (0 < Int_val threads -> Ggml.n_threads w = Int_val threads) /\
    (Int_val threads <= 0 -> Ggml.n_threads w = 4) /\
    0 < Ggml.n_threads w /\
    Ggml.mem_size w = Ggml.size_of_long size /\
    (- 2 ^ 62 <= size < 2 ^ 62 -> Ggml.caml_ggml_native_get_mem_size (Some w) = Ok size) /\
    forall n,
      exists w',
        Ggml.caml_ggml_native_set_n_threads (Some w) n = (Some w', Ok tt) /\
        Ggml.n_threads w' = Int_val n /\
        Ggml.caml_ggml_native_get_mem_size (Some w') =
          Ggml.caml_ggml_native_get_mem_size (Some w) /\
        Ggml.caml_ggml_native_used_mem (Some w') = Ggml.caml_ggml_native_used_mem (Some w) /\
        forall gw c cg,
          Ggml.ctx w = Some c -> Ggml.graph gw = Some cg ->
          Ggml.caml_ggml_native_graph_compute (Some w') (Some gw) =
            (Some {| Ggml.ctx :=
                       Some (fst (Ggml.ggml_graph_compute_with_ctx c cg (Int_val n)));
                     Ggml.mem_size := Ggml.size_of_long size;
                     Ggml.backend := Ggml.backend w;
                     Ggml.n_threads := Int_val n;
                     Ggml.ref_count := 1 |},
             Some {| Ggml.graph :=
                       Some (snd (Ggml.ggml_graph_compute_with_ctx c cg (Int_val n)));
                     Ggml.ctx_id := Ggml.ctx_id gw;
                     Ggml.n_nodes := Ggml.n_nodes gw |},
             Ok tt).
Proof.
  split; [| split].
  - intros Hb. unfold Ggml.caml_ggml_native_init. rewrite Hb. reflexivity.
  - apply Int_val_in_range.
  - unfold Ggml.caml_ggml_native_init.
    destruct (Ggml.HAVE_GGML b); [| intros r' w H; discriminate H].
    destruct (Ggml.ggml_init (Ggml.size_of_long size)) as [c0 |];
      [| intros r' w H; discriminate H].
    destruct malloc_ok; intros r' w H; inversion H; subst; clear H.
    simpl. split; [reflexivity |]. split; [| split; [| split; [| split; [| split]]]].
    + intros Hp. apply Z.ltb_lt in Hp. rewrite Hp. reflexivity.
    + intros Hn.
      replace (0 <? Int_val threads) with false by (symmetry; apply Z.ltb_ge; lia).
      reflexivity.
    + destruct (0 <? Int_val threads) eqn:Ht; [apply Z.ltb_lt in Ht; exact Ht | lia].
    + reflexivity.
    + intros Hs. rewrite Val_long_size_of_long by exact Hs. reflexivity.
    + intros n. eexists. split; [reflexivity |]. simpl. repeat split.
      intros gw c cg Hc Hg. inversion Hc; subst c.
      unfold Ggml.caml_ggml_native_graph_compute. simpl. rewrite Hg.
      destruct (Ggml.ggml_graph_compute_with_ctx c0 cg (Int_val n)) as [c' g'].
      reflexivity.
Qed.

(** X18.  A context is released by its first [free]: [init] sets the
    reference count to 1 and no stub raises it, so [free] stores NULL in
    the handle.  A second [free] and [set_n_threads] then do nothing and
    return unit, while [used_mem], [get_mem_size] and [graph_compute]
    raise. *)
Theorem free_releases_at_once {L : Ggml.Library} (b : Ggml.build)
  (r r' : Ggml.registry) (size threads : Z) (c : Ggml.ctx_val) (g : Ggml.graph_val) :
  Ggml.caml_ggml_native_init b r true size threads = (r', Ok c) ->
  (exists used, Ggml.caml_ggml_native_used_mem c = Ok used) /\
  Ggml.caml_ggml_native_free c = (None, Ok tt) /\
  Ggml.caml_ggml_native_free (fst (Ggml.caml_ggml_native_free c)) = (None, Ok tt) /\
  Ggml.caml_ggml_native_set_n_threads (fst (Ggml.caml_ggml_native_free c)) threads =
    (None, Ok tt) /\
  Ggml.caml_ggml_native_used_mem (fst (Ggml.caml_ggml_native_free c)) =
    Failure "ggml_native_used_mem: invalid context" /\
  Ggml.caml_ggml_native_get_mem_size (fst (Ggml.caml_ggml_native_free c)) =
    Failure "ggml_native_get_mem_size: invalid context" /\
  snd (Ggml.caml_ggml_native_graph_compute (fst (Ggml.caml_ggml_native_free c)) g) =
    Failure "ggml_native_graph_compute: invalid argument".
Proof.
  unfold Ggml.caml_ggml_native_init.
  destruct (Ggml.HAVE_GGML b); [| intros H; discriminate H].
  destruct (Ggml.ggml_init (Ggml.size_of_long size)) as [c0 |];
    intros H; inversion H; subst; clear H.
  simpl. repeat split. eexists. reflexivity.
Qed.

(** X19.  The context table never makes [init] fail and takes the first
    64 contexts only: whether [init] returns or raises does not depend
    on the table; a failed [init] leaves the table and its counter as
    they were; a successful one advances the counter and writes the new
    wrapper into the slot of the old counter when that is below 64,
    touching no other slot, and writes nothing when it is 64 or more. *)
Theorem context_table_takes_the_first_64 {L : Ggml.Library} (b : Ggml.build)
  (r : Ggml.registry) (malloc_ok : bool) (size threads : Z) :
  snd (Ggml.caml_ggml_native_init b r malloc_ok size threads) =
    snd (Ggml.caml_ggml_native_init b Ggml.initial_registry malloc_ok size threads) /\
  (forall msg,
     snd (Ggml.caml_ggml_native_init b r malloc_ok size threads) = Failure msg ->
     fst (Ggml.caml_ggml_native_init b r malloc_ok size threads) = r) /\
  (forall r' w,
     Ggml.caml_ggml_native_init b r malloc_ok size threads = (r', Ok (Some w)) ->
     Ggml.g_next_ctx_id r' = wrap_int (Ggml.g_next_ctx_id r + 1) /\
     List.length (Ggml.g_contexts r') = List.length (Ggml.g_contexts r) /\
     (0 <= Ggml.g_next_ctx_id r < 64 ->
      (Z.to_nat (Ggml.g_next_ctx_id r) < List.length (Ggml.g_contexts r))%nat ->
      nth (Z.to_nat (Ggml.g_next_ctx_id r)) (Ggml.g_contexts r') None = Some w) /\
     (0 <= Ggml.g_next_ctx_id r ->
      forall j, j <> Z.to_nat (Ggml.g_next_ctx_id r) ->
        nth j (Ggml.g_contexts r') None = nth j (Ggml.g_contexts r) None) /\
     (64 <= Ggml.g_next_ctx_id r -> Ggml.g_contexts r' = Ggml.g_contexts r)).
Proof.
  unfold Ggml.caml_ggml_native_init.
  destruct (Ggml.HAVE_GGML b); [| repeat split; intros; discriminate].
  destruct (Ggml.ggml_init (Ggml.size_of_long size)) as [c0 |];
    [| repeat split; intros; discriminate].
  destruct malloc_ok; [| repeat split; intros; discriminate].
  split; [reflexivity |]. split; [intros msg H; discriminate H |].
  intros r' w H. inversion H; subst; clear H.
  unfold Ggml.register, Ggml.GGML_MAX_CONTEXTS. simpl.
  split; [reflexivity |]. split; [| split; [| split]].
  - destruct ((Ggml.g_next_ctx_id r <? 64) && (0 <=? Ggml.g_next_ctx_id r));
      [apply set_nth_length | reflexivity].
  - intros [H0 H1] Hlen.
    replace (Ggml.g_next_ctx_id r <? 64) with true by (symmetry; apply Z.ltb_lt; lia).
    replace (0 <=? Ggml.g_next_ctx_id r) with true by (symmetry; apply Z.leb_le; lia).
    simpl. apply nth_set_nth_same. exact Hlen.
  - intros H0 j Hj.
    destruct ((Ggml.g_next_ctx_id r <? 64) && (0 <=? Ggml.g_next_ctx_id r));
      [| reflexivity].
    apply nth_set_nth_other. congruence.
  - intros H64.
    replace (Ggml.g_next_ctx_id r <? 64) with false by (symmetry; apply Z.ltb_ge; lia).
    reflexivity.
Qed.

Lemma backend_is_named_consistently_witness :
  Ggml.caml_ggml_native_backend_type
    {| Ggml.HAVE_GGML := true; Ggml.GGML_USE_CUDA := true; Ggml.GGML_USE_METAL := true |} =
    Ok 1 /\
  exists r w,
    Ggml.caml_ggml_native_init (L := Ggml.counting)
      {| Ggml.HAVE_GGML := true; Ggml.GGML_USE_CUDA := false; Ggml.GGML_USE_METAL := true |}
      Ggml.initial_registry true 4096 2 = (r, Ok (Some w)) /\
    Ggml.backend w = 2.
Proof.
  split.
  - apply (proj1 (proj2 (proj2 (proj2 (proj2
      (backend_is_named_consistently (L := Ggml.counting)
         {| Ggml.HAVE_GGML := true; Ggml.GGML_USE_CUDA := true;
            Ggml.GGML_USE_METAL := true |})))))); reflexivity.
  - eexists. eexists. split; [reflexivity |].
    pose proof (proj2 (proj2 (proj2 (proj2 (proj2
      (backend_is_named_consistently (L := Ggml.counting)
         {| Ggml.HAVE_GGML := true; Ggml.GGML_USE_CUDA := false;
            Ggml.GGML_USE_METAL := true |})))))
      Ggml.initial_registry 4096 2 _ _ eq_refl eq_refl) as H.
    inversion H. reflexivity.
Defined.

Lemma thread_count_is_normalised_by_init_only_witness :
  exists r w,
    Ggml.caml_ggml_native_init (L := Ggml.counting)
      {| Ggml.HAVE_GGML := true; Ggml.GGML_USE_CUDA := false; Ggml.GGML_USE_METAL := false |}
      Ggml.initial_registry true 4096 4294967296 = (r, Ok (Some w)) /\
    Ggml.n_threads w = 4 /\
    Ggml.caml_ggml_native_get_mem_size (Some w) = Ok 4096 /\
    exists w',
      Ggml.caml_ggml_native_set_n_threads (Some w) (-3) = (Some w', Ok tt) /\
      Ggml.n_threads w' = -3.
Proof.
  eexists. eexists. split; [reflexivity |].
  destruct (thread_count_is_normalised_by_init_only (L := Ggml.counting)
              {| Ggml.HAVE_GGML := true; Ggml.GGML_USE_CUDA := false;
                 Ggml.GGML_USE_METAL := false |}
              Ggml.initial_registry true 4096 4294967296) as [_ [_ H]].
  destruct (H _ _ eq_refl) as [_ [_ [H4 [_ [_ [Hm Hs]]]]]].
  split; [apply H4; vm_compute; discriminate |]. split; [apply Hm; lia |].
  destruct (Hs (-3)) as [w' [Hw' [Hn _]]].
  exists w'. split; [exact Hw' | exact Hn].
Defined.

Lemma free_releases_at_once_witness :
  exists r c,
    Ggml.caml_ggml_native_init (L := Ggml.counting)
      {| Ggml.HAVE_GGML := true; Ggml.GGML_USE_CUDA := false; Ggml.GGML_USE_METAL := false |}
      Ggml.initial_registry true 4096 8 = (r, Ok c) /\
    Ggml.caml_ggml_native_free c = (None, Ok tt) /\
    Ggml.caml_ggml_native_used_mem (fst (Ggml.caml_ggml_native_free c)) =
      Failure "ggml_native_used_mem: invalid context".
Proof.
  eexists. eexists. split; [reflexivity |].
  destruct (free_releases_at_once (L := Ggml.counting)
              {| Ggml.HAVE_GGML := true; Ggml.GGML_USE_CUDA := false;
                 Ggml.GGML_USE_METAL := false |}
              Ggml.initial_registry _ 4096 8 _ None eq_refl)
    as [_ [Hf [_ [_ [Hu _]]]]].
  split; [exact Hf | exact Hu].
Defined.

Lemma context_table_takes_the_first_64_witness :
  exists r w,
    Ggml.caml_ggml_native_init (L := Ggml.counting)
      {| Ggml.HAVE_GGML := true; Ggml.GGML_USE_CUDA := false; Ggml.GGML_USE_METAL := false |}
      {| Ggml.g_contexts := repeat None 64; Ggml.g_next_ctx_id := 64 |}
      true 4096 8 = (r, Ok (Some w)) /\
    Ggml.g_next_ctx_id r = 65 /\
    Ggml.g_contexts r = repeat None 64.
Proof.
  eexists. eexists. split; [reflexivity |].
  destruct (context_table_takes_the_first_64 (L := Ggml.counting)
              {| Ggml.HAVE_GGML := true; Ggml.GGML_USE_CUDA := false;
                 Ggml.GGML_USE_METAL := false |}
              {| Ggml.g_contexts := repeat None 64; Ggml.g_next_ctx_id := 64 |}
              true 4096 8) as [_ [_ H]].
  destruct (H _ _ eq_refl) as [Hn [_ [_ [_ H64]]]].
  split; [exact Hn |]. apply H64. simpl. lia.
Defined.

Section Released.

Context {E : Engine}.

Lemma call_on_a_closed_database (d : db_val) (c : db_call) :
  not_open d = true ->
  fst (run_db_call d c) = d /\ raised (snd (run_db_call d c)) = true.
Proof.
  intros H. destruct d as [w |]; simpl in H.
  - destruct c; simpl;
      unfold caml_rocksdb_put, caml_rocksdb_delete, caml_rocksdb_batch_write,
        caml_rocksdb_compact_range, caml_rocksdb_flush;
      rewrite H; split; reflexivity.
  - destruct c; split; reflexivity.
Qed.

Lemma call_on_a_destroyed_batch (c : batch_call) :
  fst (run_call None c) = None /\ raised (snd (run_call None c)) = true.
Proof. destruct c; split; reflexivity. Qed.

(** X14.  A handle that was closed or destroyed never comes back: every
    sequence of calls on a closed database leaves it closed and each of
    the calls raises, and every sequence of put, delete and clear on a
    destroyed batch leaves it destroyed, each call raising, with count
    0 throughout. *)
Theorem released_handles_stay_released (d : db_val) (b : batch_val)
  (cs : list db_call) (bcs : list batch_call) :
  (let closed := fst (caml_rocksdb_close d) in
   run_db_calls closed cs = closed /\
   caml_rocksdb_is_open (run_db_calls closed cs) = Ok false /\
   Forall (fun c => raised (snd (run_db_call closed c)) = true) cs) /\
  (let destroyed := fst (caml_rocksdb_batch_destroy b) in
   run_calls destroyed bcs = None /\
   caml_rocksdb_batch_count (run_calls destroyed bcs) = Ok 0 /\
   Forall (fun c => raised (snd (run_call destroyed c)) = true) bcs).
Proof.
  split.
  - pose proof (close_not_open d) as Hc.
    set (closed := fst (caml_rocksdb_close d)) in *. simpl.
    assert (Hrun : run_db_calls closed cs = closed).
    { unfold run_db_calls. induction cs as [| c rest IH]; simpl; [reflexivity |].
      rewrite (proj1 (call_on_a_closed_database closed c Hc)). exact IH. }
    rewrite Hrun. split; [reflexivity |]. split.
    + unfold caml_rocksdb_is_open. rewrite Hc. reflexivity.
    + apply Forall_forall. intros c _. apply call_on_a_closed_database. exact Hc.
  - assert (Hb : fst (caml_rocksdb_batch_destroy b) = None) by (destruct b; reflexivity).
    rewrite Hb. simpl.
    assert (Hrun : run_calls None bcs = None).
    { unfold run_calls. induction bcs as [| c rest IH]; simpl; [reflexivity |].
      rewrite (proj1 (call_on_a_destroyed_batch c)). exact IH. }
    rewrite Hrun. split; [reflexivity |]. split; [reflexivity |].
    apply Forall_forall. intros c _. apply call_on_a_destroyed_batch.
Qed.

End Released.
